(** * casino/cards.py : decks, blackjack scoring and poker hand ranking

    A shallow embedding of [src/casino/cards.py].  Python values are
    modelled as the code has them: ranks and suits are strings, a [Card]
    is the named pair [(rank, suit)], Python integers are [Z], lists and
    tuples are [list], and a raised exception is the left injection of a
    small error monad.  [random.shuffle] draws from an explicit random
    tape that is threaded through the deck constructor. *)

From Stdlib Require Import String Ascii.
From Stdlib Require Import List ZArith QArith Bool Lia Lqa Arith Permutation.
Import ListNotations.
Local Open Scope string_scope.
Local Open Scope Z_scope.

(** ** Exceptions *)

Module Py.

Inductive exn : Type :=
| ValueError
| KeyError
| IndexError
| AttributeError
| StopIteration.

Definition result (A : Type) : Type := (exn + A)%type.

Definition ret {A} (a : A) : result A := inr a.
Definition raise {A} (e : exn) : result A := inl e.

Definition bind {A B} (m : result A) (k : A -> result B) : result B :=
  match m with
  | inl e => inl e
  | inr a => k a
  end.

End Py.
Import Py.

Notation "x <- m ;; k" := (bind m (fun x => k))
  (at level 61, m at next level, right associativity).

(** [a and b] on computations that may raise: [b] is not evaluated when
    [a] is false. *)
Definition py_and (a b : result bool) : result bool :=
  x <- a ;; if x then b else ret false.

(** ** Cards *)

Record Card : Type := mkCard { rank : string; suit : string }.

Definition Card_eq_dec (c d : Card) : {c = d} + {c <> d}.
Proof. decide equality; apply string_dec. Defined.

Definition RANKS : list string :=
  ["2"; "3"; "4"; "5"; "6"; "7"; "8"; "9"; "10"; "J"; "Q"; "K"; "A"].

Definition SUITS : list string := ["H"; "D"; "C"; "S"].

(** The cards a [Deck] can hold. *)
Definition valid_card (c : Card) : Prop :=
  In (rank c) RANKS /\ In (suit c) SUITS.

(** ** Python built-ins used by the module *)

(** [x in xs] for a list or tuple of strings. *)
Definition str_in (x : string) (xs : list string) : bool :=
  existsb (String.eqb x) xs.

(** [x in xs] for integers. *)
Definition int_in (x : Z) (xs : list Z) : bool :=
  existsb (Z.eqb x) xs.

(** [t * n] : a tuple repeated [n] times; empty when [n <= 0]. *)
Definition tuple_mul {A} (t : list A) (n : Z) : list A :=
  concat (repeat t (Z.to_nat n)).

(** [itertools.product(xs, ys)] : the rightmost index runs fastest. *)
Definition product {A B} (xs : list A) (ys : list B) : list (A * B) :=
  flat_map (fun x => map (pair x) ys) xs.

(** [itertools.islice(xs, start, stop)] on a list; a negative bound is
    rejected with [ValueError]. *)
Definition islice {A} (xs : list A) (start stop : Z) : result (list A) :=
  if (start <? 0) || (stop <? 0) then raise ValueError
  else ret (firstn (Z.to_nat stop - Z.to_nat start)%nat (skipn (Z.to_nat start) xs)).

(** [xs.index(x)] : position of the first occurrence, [ValueError] when
    there is none. *)
Fixpoint index (xs : list string) (x : string) : result Z :=
  match xs with
  | [] => raise ValueError
  | y :: ys => if String.eqb y x then ret 0 else i <- index ys x ;; ret (i + 1)
  end.

(** [itertools.combinations(xs, r)] : the [r]-element selections of
    positions of [xs], in lexicographic order of positions. *)
Fixpoint combinations {A} (xs : list A) (r : nat) : list (list A) :=
  match r, xs with
  | O, _ => [[]]
  | S _, [] => []
  | S r', x :: t => map (cons x) (combinations t r') ++ combinations t r
  end.

(** *** The random source

    [random.shuffle] asks the generator for one bounded draw per step.
    The generator is a tape of raw draws and a read position;
    [randbelow n] reduces the next raw draw modulo [n]. *)

Record Random : Type := mkRandom { draws : nat -> nat; pos : nat }.

Definition randbelow (n : nat) (g : Random) : nat * Random :=
  (Nat.modulo (draws g (pos g)) n, {| draws := draws g; pos := S (pos g) |}).

(** [x[i] = v].  The callers below only write inside the list. *)
Fixpoint setitem {A} (x : list A) (i : nat) (v : A) : list A :=
  match x, i with
  | [], _ => []
  | _ :: t, O => v :: t
  | a :: t, S i' => a :: setitem t i' v
  end.

(** [x[i], x[j] = x[j], x[i]]. *)
Definition swap {A} (x : list A) (i j : nat) : list A :=
  match nth_error x j, nth_error x i with
  | Some xj, Some xi => setitem (setitem x i xj) j xi
  | _, _ => x
  end.

(** The loop of [random.shuffle]:
    [for i in reversed(range(1, len(x))): j = randbelow(i + 1); swap]. *)
Fixpoint shuffle_loop {A} (i : nat) (x : list A) (g : Random) : list A * Random :=
  match i with
  | O => (x, g)
  | S i' =>
      let (j, g') := randbelow (S i) g in
      shuffle_loop i' (swap x i j) g'
  end.

Definition random_shuffle {A} (x : list A) (g : Random) : list A * Random :=
  shuffle_loop (Nat.pred (List.length x)) x g.

(** ** Deck *)

Record Deck : Type := mkDeck { deck : list Card; _idx : Z }.

Definition _create_cards (num_decks : Z) : list Card :=
  map (fun rs => mkCard (fst rs) (snd rs)) (product (tuple_mul RANKS num_decks) SUITS).

(** [Deck.shuffle] : shuffles the whole list in place, the cursor is kept. *)
Definition shuffle (d : Deck) (g : Random) : Deck * Random :=
  let (cs, g') := random_shuffle (deck d) g in
  ({| deck := cs; _idx := _idx d |}, g').

(** [Deck.__init__] : create, shuffle, reset the cursor. *)
Definition Deck_init (num_decks : Z) (g : Random) : Deck * Random :=
  let (d, g') := shuffle {| deck := _create_cards num_decks; _idx := 0 |} g in
  ({| deck := deck d; _idx := 0 |}, g').

Definition cards_remaining (d : Deck) : Z :=
  Z.of_nat (List.length (deck d)) - _idx d.

(** [Deck.deal] : the dealt cards and the deck with its cursor advanced,
    or the exception. *)
Definition deal (d : Deck) (num_cards : Z) : result (list Card * Deck) :=
  if cards_remaining d >? num_cards then
    dealt <- islice (deck d) (_idx d) (_idx d + num_cards) ;;
    ret (dealt, {| deck := deck d; _idx := _idx d + num_cards |})
  else raise ValueError.

(** [Deck.__len__]. *)
Definition Deck_len (d : Deck) : Z := Z.of_nat (List.length (deck d)).

(** *** More built-ins: dictionaries, counters, sets, sorting *)

(** [d[k]] on a dictionary kept as its item list; [KeyError] when the
    key is absent. *)
Fixpoint dict_get {V} (d : list (string * V)) (k : string) : result V :=
  match d with
  | [] => raise KeyError
  | (k', v) :: d' => if String.eqb k' k then ret v else dict_get d' k
  end.

(** [range(a, b)]. *)
Definition range (a b : Z) : list Z :=
  map (fun i => a + Z.of_nat i) (seq 0 (Z.to_nat (b - a))).

(** One more occurrence of [k] in a [Counter]; a new key goes last, as
    in a Python dict. *)
Fixpoint counter_add {K} (eqb : K -> K -> bool) (k : K) (c : list (K * Z)) : list (K * Z) :=
  match c with
  | [] => [(k, 1)]
  | (k', n) :: c' =>
      if eqb k' k then (k', n + 1) :: c' else (k', n) :: counter_add eqb k c'
  end.

(** [Counter(xs)] as its item list. *)
Definition Counter {K} (eqb : K -> K -> bool) (xs : list K) : list (K * Z) :=
  fold_left (fun c k => counter_add eqb k c) xs [].

(** [c[k]] on a [Counter] : the count of [k], zero for a missing key. *)
Fixpoint counter_get {K} (eqb : K -> K -> bool) (c : list (K * Z)) (k : K) : Z :=
  match c with
  | [] => 0
  | (k', n) :: c' => if eqb k' k then n else counter_get eqb c' k
  end.

(** [c.values()]. *)
Definition values {K V} (c : list (K * V)) : list V := map snd c.

(** [set(xs)] / [{*xs}] : only its size is ever used. *)
Definition set_of (xs : list string) : list string := nodup string_dec xs.

(** [len(xs)]. *)
Definition len {A} (xs : list A) : Z := Z.of_nat (List.length xs).

(** [sorted(xs)] on strings, ordered by code points. *)
Fixpoint insert_sorted (x : string) (xs : list string) : list string :=
  match xs with
  | [] => [x]
  | y :: ys => if String.leb x y then x :: y :: ys else y :: insert_sorted x ys
  end.

Definition sorted (xs : list string) : list string :=
  fold_right insert_sorted [] xs.

(** [xs == ys] on lists of strings. *)
Fixpoint strs_eqb (xs ys : list string) : bool :=
  match xs, ys with
  | [], [] => true
  | x :: xs', y :: ys' => String.eqb x y && strs_eqb xs' ys'
  | _, _ => false
  end.

(** [max(xs)] and [min(xs)] : [ValueError] on an empty list. *)
Definition py_max (xs : list Z) : result Z :=
  match xs with
  | [] => raise ValueError
  | x :: t => ret (fold_left Z.max t x)
  end.

Definition py_min (xs : list Z) : result Z :=
  match xs with
  | [] => raise ValueError
  | x :: t => ret (fold_left Z.min t x)
  end.

(** A list comprehension whose body may raise. *)
Fixpoint mapM {A B} (f : A -> result B) (xs : list A) : result (list B) :=
  match xs with
  | [] => ret []
  | x :: t => y <- f x ;; ys <- mapM f t ;; ret (y :: ys)
  end.

(** ** BlackJackHand *)

Module BlackJackHand.

Definition CARD_VALUES : list (string * Z) :=
  combine RANKS (range 2 11 ++ [10; 10; 10; 11]).

(** ['A' in card] : membership in the tuple [(rank, suit)]. *)
Definition in_card (x : string) (card : Card) : bool :=
  String.eqb (rank card) x || String.eqb (suit card) x.

Definition _handle_ace (current_hand_score : Z) : Z :=
  if current_hand_score >? 10 then 1 else 11.

(** The body of the [for] loop of [score], from the running
    [hand_score]. *)
Fixpoint score_from (cards : list Card) (hand_score : Z) : result Z :=
  match cards with
  | [] => ret hand_score
  | card :: rest =>
      card_score <- (if in_card "A" card then ret (_handle_ace hand_score)
                     else dict_get CARD_VALUES (rank card)) ;;
      score_from rest (hand_score + card_score)
  end.

Definition score (cards : list Card) : result Z := score_from cards 0.

Definition lt (self other : list Card) : result bool :=
  a <- score self ;; b <- score other ;; ret (a <? b).
Definition gt (self other : list Card) : result bool :=
  a <- score self ;; b <- score other ;; ret (a >? b).
Definition le (self other : list Card) : result bool :=
  a <- score self ;; b <- score other ;; ret (a <=? b).
Definition ge (self other : list Card) : result bool :=
  a <- score self ;; b <- score other ;; ret (a >=? b).

End BlackJackHand.

(** ** PokerHand *)

Module PokerHand.

Definition hand_order : list string :=
  [ "royal_flush"; "four_kind"; "straight_flush"; "full_house"; "flush";
    "straight"; "three_kind"; "two_pair"; "pair"; "high_card" ].

Definition suits (cards : list Card) : list string := map suit cards.
Definition ranks (cards : list Card) : list string := map rank cards.

Definition _all_unique_ranks (cards : list Card) : bool :=
  len (set_of (ranks cards)) =? 5.

Definition is_flush (cards : list Card) : bool :=
  (len (set_of (suits cards)) =? 1) && (len cards =? 5).

Definition is_straight (cards : list Card) : result bool :=
  if str_in "A" (ranks cards) then
    ret (strs_eqb (sorted (ranks cards)) ["2"; "3"; "4"; "5"; "A"])
  else
    rank_indices <- mapM (index RANKS) (ranks cards) ;;
    hi <- py_max rank_indices ;;
    lo <- py_min rank_indices ;;
    let sub_length := hi - lo in
    ret (_all_unique_ranks cards && (sub_length =? 4)).

Definition is_high_card (cards : list Card) : result bool :=
  s <- is_straight cards ;;
  ret (negb s && negb (is_flush cards) && (len (set_of (ranks cards)) =? 5)).

Definition is_pair (cards : list Card) : bool :=
  int_in 2 (values (Counter String.eqb (ranks cards))).

Definition is_two_pair (cards : list Card) : bool :=
  int_in 2 (values (Counter Z.eqb (values (Counter String.eqb (ranks cards))))).

Definition is_three_kind (cards : list Card) : bool :=
  int_in 3 (values (Counter String.eqb (ranks cards))).

Definition is_full_house (cards : list Card) : bool :=
  is_pair cards && is_three_kind cards.

Definition is_four_kind (cards : list Card) : bool :=
  int_in 4 (values (Counter String.eqb (ranks cards))).

Definition is_straight_flush (cards : list Card) : result bool :=
  py_and (is_straight cards) (ret (is_flush cards)).

Definition is_royal_flush (cards : list Card) : bool :=
  strs_eqb (sorted (ranks cards)) ["10"; "A"; "J"; "K"; "Q"] && is_flush cards.

(** [getattr(self, name)] for the property names the class defines. *)
Definition getattr (cards : list Card) (name : string) : result bool :=
  if String.eqb name "is_high_card" then is_high_card cards
  else if String.eqb name "is_pair" then ret (is_pair cards)
  else if String.eqb name "is_two_pair" then ret (is_two_pair cards)
  else if String.eqb name "is_three_kind" then ret (is_three_kind cards)
  else if String.eqb name "is_straight" then is_straight cards
  else if String.eqb name "is_flush" then ret (is_flush cards)
  else if String.eqb name "is_full_house" then ret (is_full_house cards)
  else if String.eqb name "is_four_kind" then ret (is_four_kind cards)
  else if String.eqb name "is_straight_flush" then is_straight_flush cards
  else if String.eqb name "is_royal_flush" then ret (is_royal_flush cards)
  else raise AttributeError.

(** [next(hand for hand in order if getattr(self, 'is_' + hand))]. *)
Fixpoint next_hand (cards : list Card) (order : list string) : result string :=
  match order with
  | [] => raise StopIteration
  | hand :: rest =>
      b <- getattr cards ("is_" ++ hand) ;;
      if b then ret hand else next_hand cards rest
  end.

Definition hand_rank (cards : list Card) : result Z :=
  hand <- next_hand cards hand_order ;;
  index hand_order hand.

Definition lt (self other : list Card) : result bool :=
  a <- hand_rank self ;; b <- hand_rank other ;; ret (a >? b).
Definition gt (self other : list Card) : result bool :=
  a <- hand_rank self ;; b <- hand_rank other ;; ret (a <? b).
Definition le (self other : list Card) : result bool :=
  a <- hand_rank self ;; b <- hand_rank other ;; ret (a >=? b).
Definition ge (self other : list Card) : result bool :=
  a <- hand_rank self ;; b <- hand_rank other ;; ret (a <=? b).

End PokerHand.

(** ** HoldEmHand *)

(** A Python number: an [int], or a [float] given by its exact value. *)
Inductive number : Type :=
| Int (z : Z)
| Float (q : Q).

Definition number_value (n : number) : Q :=
  match n with
  | Int z => inject_Z z
  | Float q => q
  end.

(** [a < b] and [a == b] on numbers compare the exact values. *)
Definition number_lt (a b : number) : bool :=
  negb (Qle_bool (number_value b) (number_value a)).

Definition number_eq (a b : number) : bool :=
  Qeq_bool (number_value a) (number_value b).

Module HoldEmHand.

(** [1e6]. *)
Definition sentinel : number := Float (1000000 # 1).

(** The [for card_combo in ...] loop, from the running [best_rank]. *)
Fixpoint best_from (cards : list Card) (combos : list (list Card)) (best_rank : number)
  : result number :=
  match combos with
  | [] => ret best_rank
  | card_combo :: rest =>
      let cards' := (cards ++ card_combo)%list in
      current_rank <- PokerHand.hand_rank cards' ;;
      best_from cards rest
        (if number_lt (Int current_rank) best_rank then Int current_rank else best_rank)
  end.

Definition hand_rank (cards community_cards : list Card) : result number :=
  match community_cards with
  | _ :: _ => best_from cards (combinations community_cards 3) sentinel
  | [] => r <- PokerHand.hand_rank cards ;; ret (Int r)
  end.

End HoldEmHand.

(** [a > b], [a <= b] and [a >= b] on numbers. *)
Definition number_gt (a b : number) : bool := number_lt b a.

Definition number_le (a b : number) : bool :=
  Qle_bool (number_value a) (number_value b).

Definition number_ge (a b : number) : bool :=
  Qle_bool (number_value b) (number_value a).

(** A HoldEmHand object: the cards held and the community cards. *)
Record HoldEm : Type := mkHoldEm {
  he_cards : list Card;
  he_community_cards : list Card
}.

(** The comparisons HoldEmHand inherits from PokerHand: [self.hand_rank]
    is then the overriding property of HoldEmHand. *)
Definition HoldEm_rank (h : HoldEm) : result number :=
  HoldEmHand.hand_rank (he_cards h) (he_community_cards h).

Definition HoldEm_lt (self other : HoldEm) : result bool :=
  a <- HoldEm_rank self ;; b <- HoldEm_rank other ;; ret (number_gt a b).
Definition HoldEm_gt (self other : HoldEm) : result bool :=
  a <- HoldEm_rank self ;; b <- HoldEm_rank other ;; ret (number_lt a b).
Definition HoldEm_le (self other : HoldEm) : result bool :=
  a <- HoldEm_rank self ;; b <- HoldEm_rank other ;; ret (number_ge a b).
Definition HoldEm_ge (self other : HoldEm) : result bool :=
  a <- HoldEm_rank self ;; b <- HoldEm_rank other ;; ret (number_le a b).

(** ** Sample cards and hands *)

Definition C (r s : string) : Card := mkCard r s.

Definition tape0 : Random := {| draws := fun k => (7 * k + 3)%nat; pos := 0 |}.

(** The 52 cards of one deck, in the order [_create_cards] builds them. *)
Definition one_deck : list Card :=
  map (fun rs => mkCard (fst rs) (snd rs)) (product RANKS SUITS).

(** Number of copies of [c] in a card sequence. *)
Definition copies (c : Card) (cs : list Card) : Z :=
  Z.of_nat (count_occ Card_eq_dec cs c).

(** ** The properties, in the words of the specification *)

(** [int(r)] for a rank written in decimal digits. *)
Definition int_of_str (r : string) : Z :=
  fold_left (fun acc ch => 10 * acc + (Z.of_nat (nat_of_ascii ch) - 48))
            (list_ascii_of_string r) 0.

(** The value of a card of rank [r] when the hand already scores
    [so_far]: numeric ranks at face value, J, Q and K at 10, an ace at 1
    if the score so far exceeds 10 and at 11 otherwise. *)
Definition spec_card_value (so_far : Z) (r : string) : Z :=
  if String.eqb r "A" then (if 10 <? so_far then 1 else 11)
  else if str_in r ["J"; "Q"; "K"] then 10
  else int_of_str r.

(** The card values summed in hand order. *)
Definition sequential_score (cards : list Card) : Z :=
  fold_left (fun so_far card => so_far + spec_card_value so_far (rank card)) cards 0.

(** The ten categories in the precedence order of the specification. *)
Definition categories : list (list Card -> result bool) :=
  [ fun cards => ret (PokerHand.is_royal_flush cards);
    fun cards => ret (PokerHand.is_four_kind cards);
    PokerHand.is_straight_flush;
    fun cards => ret (PokerHand.is_full_house cards);
    fun cards => ret (PokerHand.is_flush cards);
    PokerHand.is_straight;
    fun cards => ret (PokerHand.is_three_kind cards);
    fun cards => ret (PokerHand.is_two_pair cards);
    fun cards => ret (PokerHand.is_pair cards);
    PokerHand.is_high_card ].

(** The categories evaluated in sequence from position [k] on: the
    position of the first one that holds. *)
Fixpoint find_first (ps : list (list Card -> result bool)) (cards : list Card) (k : nat)
  : result nat :=
  match ps with
  | [] => raise StopIteration
  | p :: ps' => b <- p cards ;; if b then ret k else find_first ps' cards (S k)
  end.

(** Category number [i] is the first one that matches [cards]. *)
Definition first_match (cards : list Card) (i : nat) : Prop :=
  (exists p, nth_error categories i = Some p /\ p cards = ret true) /\
  (forall j p, (j < i)%nat -> nth_error categories j = Some p -> p cards = ret false).

(** [cards] is classified as the category called [name]. *)
Definition classified_as (cards : list Card) (name : string) : Prop :=
  exists i, index PokerHand.hand_order name = ret i /\ PokerHand.hand_rank cards = ret i.

(** [c] is drawn from [l]: some of the positions of [l], in their order. *)
Inductive drawn_from {A} : list A -> list A -> Prop :=
| drawn_nil : drawn_from [] []
| drawn_skip c x l : drawn_from c l -> drawn_from c (x :: l)
| drawn_take c x l : drawn_from c l -> drawn_from (x :: c) (x :: l).

(** Number of cards of rank [r] in a hand. *)
Definition rank_count (r : string) (cards : list Card) : nat :=
  count_occ string_dec (PokerHand.ranks cards) r.

(** Exactly two distinct ranks each appear exactly twice. *)
Definition two_pair_spec (cards : list Card) : Prop :=
  exists r1 r2, r1 <> r2 /\
    rank_count r1 cards = 2%nat /\ rank_count r2 cards = 2%nat /\
    forall r, rank_count r cards = 2%nat -> r = r1 \/ r = r2.

(** The five ranks occupy five consecutive positions of [RANKS]. *)
Definition consecutive_ranks (cards : list Card) : Prop :=
  exists k, (k + 5 <= 13)%nat /\
    Permutation (PokerHand.ranks cards) (firstn 5 (skipn k RANKS)).

(** The wheel: A, 2, 3, 4, 5 in any order. *)
Definition wheel_ranks (cards : list Card) : Prop :=
  Permutation (PokerHand.ranks cards) ["A"; "2"; "3"; "4"; "5"].


(** All the cards of a hand have the suit [s]. *)
Definition all_of_suit (s : string) (cards : list Card) : Prop :=
  forall c, In c cards -> suit c = s.

(** The sum of the values of the cards of a hand that holds no ace. *)
Definition plain_sum (cards : list Card) : Z :=
  fold_right (fun card acc => spec_card_value 0 (rank card) + acc) 0 cards.

(* ================================================================== *)
(** * Properties *)
(* ================================================================== *)

(** ** Lists updated in place *)

Section InPlace.
Context {A : Type}.
Hypothesis A_eq_dec : forall a b : A, {a = b} + {a <> b}.

Lemma setitem_length (x : list A) i v :
  List.length (setitem x i v) = List.length x.
Proof.
  revert i; induction x as [|a t IH]; intros [|i]; simpl; auto.
Qed.

Lemma nth_error_setitem_same (x : list A) i v a :
  nth_error x i = Some a -> nth_error (setitem x i v) i = Some v.
Proof.
  revert i; induction x as [|b t IH]; intros [|i]; simpl; try discriminate; auto.
Qed.

Lemma nth_error_setitem_other (x : list A) i j v :
  i <> j -> nth_error (setitem x i v) j = nth_error x j.
Proof.
  revert i j; induction x as [|b t IH]; intros [|i] [|j] Hij; simpl; auto.
  - congruence.
Qed.

Lemma count_occ_setitem (x : list A) i v a c :
  nth_error x i = Some a ->
  (count_occ A_eq_dec (setitem x i v) c + (if A_eq_dec a c then 1 else 0) =
   count_occ A_eq_dec x c + (if A_eq_dec v c then 1 else 0))%nat.
Proof.
  revert i; induction x as [|b t IH]; intros [|i] H; simpl in *; try discriminate.
  - injection H as ->.
    destruct (A_eq_dec a c), (A_eq_dec v c); lia.
  - specialize (IH i H).
    destruct (A_eq_dec b c); lia.
Qed.

Lemma swap_length (x : list A) i j : List.length (swap x i j) = List.length x.
Proof.
  unfold swap.
  destruct (nth_error x j), (nth_error x i); auto.
  now rewrite !setitem_length.
Qed.

Lemma count_occ_swap (x : list A) i j c :
  count_occ A_eq_dec (swap x i j) c = count_occ A_eq_dec x c.
Proof.
  unfold swap.
  destruct (nth_error x j) as [xj|] eqn:Hj; auto.
  destruct (nth_error x i) as [xi|] eqn:Hi; auto.
  pose proof (count_occ_setitem x i xj xi c Hi) as H1.
  assert (Hj' : nth_error (setitem x i xj) j = Some xj).
  { destruct (Nat.eq_dec i j) as [->|Hne].
    - eapply nth_error_setitem_same; eauto.
    - rewrite nth_error_setitem_other; auto. }
  pose proof (count_occ_setitem _ j xi xj c Hj') as H2.
  lia.
Qed.

(** The two reads of a swap inside the list succeed: the branch that
    leaves the list alone is never taken by [shuffle_loop]. *)
Lemma swap_in_range (x : list A) i j :
  (i < List.length x)%nat -> (j <= i)%nat ->
  exists xi xj, nth_error x i = Some xi /\ nth_error x j = Some xj /\
                swap x i j = setitem (setitem x i xj) j xi.
Proof.
  intros Hi Hj.
  destruct (nth_error x i) as [xi|] eqn:Ei.
  2:{ apply nth_error_None in Ei; lia. }
  destruct (nth_error x j) as [xj|] eqn:Ej.
  2:{ apply nth_error_None in Ej; lia. }
  exists xi, xj; unfold swap; rewrite Ei, Ej; auto.
Qed.

Lemma shuffle_loop_length i (x : list A) g :
  List.length (fst (shuffle_loop i x g)) = List.length x.
Proof.
  revert x g; induction i as [|i IH]; intros x g; simpl; auto.
  rewrite IH; apply swap_length.
Qed.

Lemma count_occ_shuffle_loop i (x : list A) g c :
  count_occ A_eq_dec (fst (shuffle_loop i x g)) c = count_occ A_eq_dec x c.
Proof.
  revert x g; induction i as [|i IH]; intros x g; simpl; auto.
  rewrite IH; apply count_occ_swap.
Qed.

Lemma random_shuffle_Permutation (x : list A) g :
  Permutation (fst (random_shuffle x g)) x.
Proof.
  apply (Permutation_count_occ A_eq_dec); intro c.
  apply count_occ_shuffle_loop.
Qed.

End InPlace.

Lemma randbelow_lt n g : (fst (randbelow (S n) g) < S n)%nat.
Proof. unfold randbelow, fst. apply Nat.mod_upper_bound. discriminate. Qed.

(** ** Deck *)

Lemma Deck_init_deck num_decks g :
  deck (fst (Deck_init num_decks g)) =
  fst (random_shuffle (_create_cards num_decks) g).
Proof.
  unfold Deck_init, shuffle; simpl.
  destruct (random_shuffle (_create_cards num_decks) g); reflexivity.
Qed.

Lemma Deck_init_idx num_decks g : _idx (fst (Deck_init num_decks g)) = 0.
Proof.
  unfold Deck_init, shuffle; simpl.
  destruct (random_shuffle (_create_cards num_decks) g); reflexivity.
Qed.

Lemma create_cards_unfold num_decks :
  _create_cards num_decks =
  List.concat (repeat one_deck (Z.to_nat num_decks)).
Proof.
  unfold _create_cards, tuple_mul, one_deck, product.
  induction (Z.to_nat num_decks) as [|k IH]; cbn [repeat List.concat]; [reflexivity|].
  rewrite flat_map_app, map_app, IH. reflexivity.
Qed.

Lemma in_product {A B} (xs : list A) (ys : list B) a b :
  In (a, b) (product xs ys) <-> In a xs /\ In b ys.
Proof.
  unfold product. rewrite in_flat_map. split.
  - intros (x & Hx & H). apply in_map_iff in H. destruct H as (y & E & Hy).
    injection E as -> ->. auto.
  - intros [Ha Hb]. exists a. split; [exact Ha | now apply in_map].
Qed.

Lemma valid_card_iff c : valid_card c <-> In c one_deck.
Proof.
  unfold valid_card, one_deck. rewrite in_map_iff. split.
  - intros [Hr Hs]. exists (rank c, suit c).
    split; [destruct c; reflexivity | now apply in_product].
  - intros ([r s] & <- & H). apply in_product in H. exact H.
Qed.

Lemma one_deck_NoDup : NoDup one_deck.
Proof.
  apply (NoDup_count_occ' Card_eq_dec).
  intros c H. vm_compute in H.
  repeat (destruct H as [<-|H]; [reflexivity|]).
  contradiction.
Qed.

Lemma count_occ_create_cards num_decks c :
  valid_card c ->
  count_occ Card_eq_dec (_create_cards num_decks) c = Z.to_nat num_decks.
Proof.
  intro Hc. rewrite create_cards_unfold.
  assert (H1 : count_occ Card_eq_dec one_deck c = 1%nat).
  { apply (NoDup_count_occ' Card_eq_dec); [apply one_deck_NoDup | now apply valid_card_iff]. }
  induction (Z.to_nat num_decks) as [|k IH]; cbn [repeat List.concat]; [reflexivity|].
  rewrite count_occ_app, H1, IH. reflexivity.
Qed.

Lemma In_create_cards num_decks c :
  In c (_create_cards num_decks) -> valid_card c.
Proof.
  rewrite create_cards_unfold.
  induction (Z.to_nat num_decks) as [|k IH]; cbn [repeat List.concat].
  - intros [].
  - rewrite in_app_iff. intros [H|H]; auto. now apply valid_card_iff.
Qed.

Lemma length_create_cards num_decks :
  List.length (_create_cards num_decks) = (52 * Z.to_nat num_decks)%nat.
Proof.
  rewrite create_cards_unfold.
  induction (Z.to_nat num_decks) as [|k IH]; cbn [repeat List.concat]; [reflexivity|].
  rewrite length_app, IH.
  change (List.length one_deck) with 52%nat. lia.
Qed.

Lemma Deck_init_cards_remaining num_decks g :
  0 <= num_decks ->
  cards_remaining (fst (Deck_init num_decks g)) = 52 * num_decks.
Proof.
  intro Hn. unfold cards_remaining.
  rewrite Deck_init_deck, Deck_init_idx.
  unfold random_shuffle.
  rewrite shuffle_loop_length, length_create_cards. lia.
Qed.

(** C9.  For every [num_decks >= 1] and every random tape, the freshly
    constructed Deck has [cards_remaining = 52 * num_decks], holds exactly
    [num_decks] copies of each of the 52 (rank, suit) pairs, and holds
    nothing else. *)
Theorem fresh_deck_census (num_decks : Z) (g : Random) :
  1 <= num_decks ->
  let d := fst (Deck_init num_decks g) in
  cards_remaining d = 52 * num_decks /\
  (forall c, valid_card c -> copies c (deck d) = num_decks) /\
  (forall c, In c (deck d) -> valid_card c).
Proof.
  intros Hn d. subst d.
  split; [apply Deck_init_cards_remaining; lia|].
  unfold copies. rewrite Deck_init_deck. unfold random_shuffle.
  split.
  - intros c Hc.
    rewrite (count_occ_shuffle_loop Card_eq_dec), count_occ_create_cards by assumption.
    lia.
  - intros c Hin.
    apply In_create_cards with (num_decks := num_decks).
    eapply Permutation_in; [|exact Hin].
    apply (random_shuffle_Permutation Card_eq_dec).
Qed.

Lemma fresh_deck_census_witness :
  let d := fst (Deck_init 2 tape0) in
  cards_remaining d = 52 * 2 /\
  (forall c, valid_card c -> copies c (deck d) = 2) /\
  (forall c, In c (deck d) -> valid_card c).
Proof. apply (fresh_deck_census 2 tape0). lia. Defined.

(** [deal] raises whenever the request is not strictly below the number
    of undealt cards. *)
Lemma deal_raises (d : Deck) (num_cards : Z) :
  cards_remaining d <= num_cards -> deal d num_cards = raise ValueError.
Proof.
  intro H. unfold deal.
  destruct (Z.gtb_spec (cards_remaining d) num_cards); [lia | reflexivity].
Qed.

(** A request strictly below the number of undealt cards is served from
    the cursor on, and the cursor advances by the request. *)
Lemma deal_returns (d : Deck) (num_cards : Z) :
  0 <= _idx d -> 0 <= num_cards -> num_cards < cards_remaining d ->
  exists dealt d',
    deal d num_cards = ret (dealt, d') /\
    dealt = firstn (Z.to_nat num_cards) (skipn (Z.to_nat (_idx d)) (deck d)) /\
    len dealt = num_cards /\
    cards_remaining d' = cards_remaining d - num_cards.
Proof.
  intros Hi Hn Hlt. unfold deal, islice.
  destruct (Z.gtb_spec (cards_remaining d) num_cards); [|lia].
  destruct (Z.ltb_spec (_idx d) 0); [lia|].
  destruct (Z.ltb_spec (_idx d + num_cards) 0); [lia|].
  simpl. do 2 eexists. split; [reflexivity|].
  replace (Z.to_nat (_idx d + num_cards) - Z.to_nat (_idx d))%nat
    with (Z.to_nat num_cards) by lia.
  unfold cards_remaining, len in *; simpl.
  repeat split; try lia.
  rewrite length_firstn, length_skipn. lia.
Qed.

(** C1.  On a freshly constructed single deck, whatever the shuffle, all
    52 cards are undealt and [deal(52)] raises: the request for exactly
    the remaining cards is refused. *)
Theorem deal_all_remaining_raises (g : Random) :
  let d := fst (Deck_init 1 g) in
  cards_remaining d = 52 /\ deal d 52 = raise ValueError.
Proof.
  intros d.
  assert (H : cards_remaining d = 52).
  { apply (Deck_init_cards_remaining 1 g). lia. }
  split; [exact H|].
  apply deal_raises. lia.
Qed.

(** Every card of a literal hand is a deck card. *)
Ltac valid_cards :=
  repeat (apply Forall_cons; [split; vm_compute; tauto|]); apply Forall_nil.

(** ** BlackJackHand *)

Lemma CARD_VALUES_spec r so_far :
  In r RANKS -> r <> "A" ->
  dict_get BlackJackHand.CARD_VALUES r = ret (spec_card_value so_far r).
Proof.
  intros Hr HA. simpl in Hr.
  repeat (destruct Hr as [<-|Hr]; [try reflexivity; congruence|]).
  contradiction.
Qed.

Lemma in_card_A c :
  valid_card c -> BlackJackHand.in_card "A" c = String.eqb (rank c) "A".
Proof.
  destruct c as [r s]; intros [_ Hs]; simpl in Hs.
  unfold BlackJackHand.in_card; simpl.
  repeat (destruct Hs as [<-|Hs]; [apply orb_false_r|]).
  contradiction.
Qed.

Lemma score_from_spec cards so_far :
  Forall valid_card cards ->
  BlackJackHand.score_from cards so_far =
  ret (fold_left (fun acc card => acc + spec_card_value acc (rank card)) cards so_far).
Proof.
  intro H. revert so_far. induction H as [|c cards Hc _ IH]; intro so_far.
  - reflexivity.
  - cbn [BlackJackHand.score_from fold_left].
    rewrite (in_card_A c Hc).
    destruct (String.eqb_spec (rank c) "A") as [E|E].
    + cbn [bind ret]. rewrite IH. unfold spec_card_value, BlackJackHand._handle_ace.
      rewrite E. cbn [String.eqb Ascii.eqb Bool.eqb].
      rewrite Z.gtb_ltb. reflexivity.
    + rewrite (CARD_VALUES_spec (rank c) so_far) by (apply Hc || exact E).
      cbn [bind ret]. apply IH.
Qed.

(** C5.  On every hand of deck cards [score] is the sum, in hand order,
    of the card values (numeric ranks at face value, J, Q, K at 10, an ace
    at 1 when the score accumulated before it exceeds 10 and at 11
    otherwise); the hands A,A,9 and A,K score 21 whatever their suits. *)
Theorem blackjack_score_sequential :
  (forall cards, Forall valid_card cards ->
     BlackJackHand.score cards = ret (sequential_score cards)) /\
  (forall s1 s2 s3, In s1 SUITS -> In s2 SUITS -> In s3 SUITS ->
     BlackJackHand.score [C "A" s1; C "A" s2; C "9" s3] = ret 21) /\
  (forall s1 s2, In s1 SUITS -> In s2 SUITS ->
     BlackJackHand.score [C "A" s1; C "K" s2] = ret 21).
Proof.
  split; [|split].
  - intros cards H. apply score_from_spec, H.
  - intros s1 s2 s3 H1 H2 H3. simpl in H1, H2, H3.
    repeat (destruct H1 as [<-|H1]; [|]); try contradiction;
    repeat (destruct H2 as [<-|H2]; [|]); try contradiction;
    repeat (destruct H3 as [<-|H3]; [|]); try contradiction; reflexivity.
  - intros s1 s2 H1 H2. simpl in H1, H2.
    repeat (destruct H1 as [<-|H1]; [|]); try contradiction;
    repeat (destruct H2 as [<-|H2]; [|]); try contradiction; reflexivity.
Qed.

Lemma blackjack_score_sequential_witness :
  BlackJackHand.score [C "A" "H"; C "7" "D"; C "A" "S"; C "Q" "C"] = ret 29 /\
  BlackJackHand.score [C "A" "H"; C "A" "S"; C "9" "D"] = ret 21 /\
  BlackJackHand.score [C "A" "C"; C "K" "D"] = ret 21.
Proof.
  destruct blackjack_score_sequential as [H1 [H2 H3]].
  split; [|split].
  - apply (H1 [C "A" "H"; C "7" "D"; C "A" "S"; C "Q" "C"]).
    valid_cards.
  - apply H2; vm_compute; tauto.
  - apply H3; vm_compute; tauto.
Defined.

(** ** Counters *)

Section CounterFacts.
Context {K : Type}.
Variable eqb : K -> K -> bool.
Hypothesis eqb_spec : forall a b, reflect (a = b) (eqb a b).
Variable dec : forall a b : K, {a = b} + {a <> b}.

Lemma counter_get_add k c k' :
  counter_get eqb (counter_add eqb k c) k' =
  counter_get eqb c k' + (if eqb k k' then 1 else 0).
Proof.
  induction c as [|[k0 n] c IH]; cbn [counter_add counter_get].
  - destruct (eqb k k'); reflexivity.
  - destruct (eqb_spec k0 k) as [->|Hne]; cbn [counter_get].
    + destruct (eqb k k'); lia.
    + destruct (eqb_spec k0 k') as [->|Hne'].
      * destruct (eqb_spec k k'); [congruence | lia].
      * apply IH.
Qed.

Lemma counter_add_keys k c k' :
  In k' (map fst (counter_add eqb k c)) <-> k' = k \/ In k' (map fst c).
Proof.
  induction c as [|[k0 n] c IH]; cbn [counter_add map fst In].
  - intuition.
  - destruct (eqb_spec k0 k) as [->|Hne]; cbn [map fst In].
    + intuition.
    + rewrite IH. intuition.
Qed.

Lemma counter_add_NoDup k c :
  NoDup (map fst c) -> NoDup (map fst (counter_add eqb k c)).
Proof.
  induction c as [|[k0 n] c IH]; cbn [counter_add map fst]; intro H.
  - repeat constructor. intros [].
  - inversion H as [|? ? Hnotin Hnd]; subst.
    destruct (eqb_spec k0 k) as [->|Hne]; cbn [map fst].
    + constructor; assumption.
    + constructor; [|auto].
      rewrite counter_add_keys. intros [E|Hin]; [congruence | contradiction].
Qed.

Lemma counter_get_of_item c k n :
  NoDup (map fst c) -> In (k, n) c -> counter_get eqb c k = n.
Proof.
  induction c as [|[k0 n0] c IH]; cbn [map fst counter_get]; intros Hnd Hin.
  - destruct Hin.
  - inversion Hnd as [|? ? Hnotin Hnd']; subst.
    destruct Hin as [E|Hin].
    + injection E as -> ->. destruct (eqb_spec k k); congruence.
    + destruct (eqb_spec k0 k) as [->|Hne]; [|auto].
      exfalso. apply Hnotin. apply (in_map fst) in Hin. exact Hin.
Qed.

Lemma item_of_counter_get c k :
  In k (map fst c) -> In (k, counter_get eqb c k) c.
Proof.
  induction c as [|[k0 n0] c IH]; cbn [map fst counter_get]; intros Hin.
  - destruct Hin.
  - destruct (eqb_spec k0 k) as [->|Hne]; [left; reflexivity|].
    right. apply IH. destruct Hin as [E|Hin]; [congruence | exact Hin].
Qed.

Lemma counter_fold xs : forall c,
  let c' := fold_left (fun c k => counter_add eqb k c) xs c in
  (NoDup (map fst c) -> NoDup (map fst c')) /\
  (forall k, In k (map fst c') <-> In k xs \/ In k (map fst c)) /\
  (forall k, counter_get eqb c' k = counter_get eqb c k + Z.of_nat (count_occ dec xs k)).
Proof.
  induction xs as [|x xs IH]; intro c; cbn [fold_left].
  - cbn. split; [|split]; intros; intuition lia.
  - destruct (IH (counter_add eqb x c)) as (Hnd & Hkeys & Hget).
    split; [|split].
    + intro H. apply Hnd, counter_add_NoDup, H.
    + intro k. rewrite Hkeys, counter_add_keys. cbn [In]. intuition.
    + intro k. rewrite Hget, counter_get_add. cbn [count_occ].
      destruct (eqb_spec x k) as [E|Hne]; destruct (dec x k); try congruence; lia.
Qed.

(** The values of [Counter(xs)] are the multiplicities of the elements
    of [xs]. *)
Lemma Counter_values xs n :
  In n (values (Counter eqb xs)) <->
  exists k, In k xs /\ n = Z.of_nat (count_occ dec xs k).
Proof.
  unfold Counter, values.
  destruct (counter_fold xs []) as (Hnd & Hkeys & Hget).
  cbn [map fst] in *.
  split.
  - rewrite in_map_iff. intros [[k m] [E Hin]]. cbn in E. subst m.
    exists k. split.
    + apply (in_map fst) in Hin. apply Hkeys in Hin. cbn in Hin. tauto.
    + rewrite <- (counter_get_of_item _ k n (Hnd (NoDup_nil _)) Hin).
      rewrite Hget. reflexivity.
  - intros [k [Hin ->]].
    apply in_map_iff. exists (k, Z.of_nat (count_occ dec xs k)). split; [reflexivity|].
    assert (Hk : In k (map fst (fold_left (fun c k => counter_add eqb k c) xs []))).
    { apply Hkeys. left. exact Hin. }
    apply item_of_counter_get in Hk. rewrite Hget in Hk. exact Hk.
Qed.

End CounterFacts.

Lemma int_in_In x xs : int_in x xs = true <-> In x xs.
Proof.
  unfold int_in. rewrite existsb_exists. split.
  - intros [y [Hy E]]. apply Z.eqb_eq in E. now subst.
  - intro H. exists x. split; [exact H | apply Z.eqb_refl].
Qed.

Lemma str_in_In x xs : str_in x xs = true <-> In x xs.
Proof.
  unfold str_in. rewrite existsb_exists. split.
  - intros [y [Hy E]]. apply String.eqb_eq in E. now subst.
  - intro H. exists x. split; [exact H | apply String.eqb_refl].
Qed.

(** [n in Counter(ranks).values()] : some rank occurs exactly [n] times. *)
Lemma rank_multiplicity cards n :
  int_in n (values (Counter String.eqb (PokerHand.ranks cards))) = true <->
  exists r, In r (PokerHand.ranks cards) /\ n = Z.of_nat (rank_count r cards).
Proof.
  rewrite int_in_In. apply (Counter_values String.eqb String.eqb_spec string_dec).
Qed.

(** ** PokerHand: the order of evaluation *)

Lemma index_range xs x i : index xs x = ret i -> 0 <= i < len xs.
Proof.
  unfold len. revert i. induction xs as [|y ys IH]; intro i; cbn [index].
  - discriminate.
  - destruct (String.eqb y x).
    + intro E. injection E as <-. cbn [List.length]. lia.
    + destruct (index ys x) as [e|j]; cbn [bind ret]; [discriminate|].
      intro E. injection E as <-. specialize (IH j eq_refl). cbn [List.length]. lia.
Qed.

Lemma getattr_names cards :
  PokerHand.getattr cards ("is_" ++ "royal_flush") = ret (PokerHand.is_royal_flush cards) /\
  PokerHand.getattr cards ("is_" ++ "four_kind") = ret (PokerHand.is_four_kind cards) /\
  PokerHand.getattr cards ("is_" ++ "straight_flush") = PokerHand.is_straight_flush cards /\
  PokerHand.getattr cards ("is_" ++ "full_house") = ret (PokerHand.is_full_house cards) /\
  PokerHand.getattr cards ("is_" ++ "flush") = ret (PokerHand.is_flush cards) /\
  PokerHand.getattr cards ("is_" ++ "straight") = PokerHand.is_straight cards /\
  PokerHand.getattr cards ("is_" ++ "three_kind") = ret (PokerHand.is_three_kind cards) /\
  PokerHand.getattr cards ("is_" ++ "two_pair") = ret (PokerHand.is_two_pair cards) /\
  PokerHand.getattr cards ("is_" ++ "pair") = ret (PokerHand.is_pair cards) /\
  PokerHand.getattr cards ("is_" ++ "high_card") = PokerHand.is_high_card cards.
Proof. repeat split. Qed.

(** [hand_rank] walks [hand_order] exactly as [find_first] walks
    [categories]. *)
Lemma hand_rank_find_first cards :
  PokerHand.hand_rank cards =
  (n <- find_first categories cards 0 ;; ret (Z.of_nat n)).
Proof.
  destruct (getattr_names cards) as (G0 & G1 & G2 & G3 & G4 & G5 & G6 & G7 & G8 & G9).
  unfold PokerHand.hand_rank, PokerHand.hand_order, categories.
  cbn [PokerHand.next_hand find_first].
  rewrite G0, G1, G2, G3, G4, G5, G6, G7, G8, G9.
  cbn [bind ret].
  destruct (PokerHand.is_royal_flush cards); [reflexivity|].
  destruct (PokerHand.is_four_kind cards); [reflexivity|].
  destruct (PokerHand.is_straight_flush cards) as [e|[|]]; [reflexivity|reflexivity|].
  cbn [bind ret].
  destruct (PokerHand.is_full_house cards); [reflexivity|].
  destruct (PokerHand.is_flush cards); [reflexivity|].
  destruct (PokerHand.is_straight cards) as [e|[|]]; [reflexivity|reflexivity|].
  cbn [bind ret].
  destruct (PokerHand.is_three_kind cards); [reflexivity|].
  destruct (PokerHand.is_two_pair cards); [reflexivity|].
  destruct (PokerHand.is_pair cards); [reflexivity|].
  destruct (PokerHand.is_high_card cards) as [e|[|]]; reflexivity.
Qed.

Lemma find_first_spec ps cards : forall k n,
  find_first ps cards k = ret n <->
  (k <= n)%nat /\
  (exists p, nth_error ps (n - k) = Some p /\ p cards = ret true) /\
  (forall j p, (j < n - k)%nat -> nth_error ps j = Some p -> p cards = ret false).
Proof.
  induction ps as [|p0 ps IH]; intros k n; cbn [find_first].
  - split; [discriminate|].
    intros (_ & (p & Hp & _) & _). destruct (n - k)%nat; discriminate.
  - destruct (p0 cards) as [e|[|]] eqn:E0; cbn [bind ret].
    + split; [discriminate|].
      intros (_ & (p & Hp & Ht) & Hf).
      destruct (n - k)%nat as [|m] eqn:Em.
      * cbn in Hp. injection Hp as <-. (unfold ret in *; congruence).
      * specialize (Hf 0%nat p0 (Nat.lt_0_succ _) eq_refl). (unfold ret in *; congruence).
    + split.
      * intro H. injection H as <-. rewrite Nat.sub_diag.
        split; [lia|]. split; [exists p0; auto|]. intros j p Hj; lia.
      * intros (Hle & _ & Hf).
        destruct (n - k)%nat as [|m] eqn:Em.
        -- f_equal. lia.
        -- specialize (Hf 0%nat p0 (Nat.lt_0_succ _) eq_refl). (unfold ret in *; congruence).
    + rewrite IH. split.
      * intros (Hle & (p & Hp & Ht) & Hf).
        split; [lia|].
        replace (n - k)%nat with (S (n - S k)) by lia.
        split; [exists p; auto|].
        intros [|j] q Hj Hq; cbn in Hq.
        -- injection Hq as <-. exact E0.
        -- apply (Hf j q); [lia | exact Hq].
      * intros (Hle & (p & Hp & Ht) & Hf).
        destruct (n - k)%nat as [|m] eqn:Em.
        -- cbn in Hp. injection Hp as <-. (unfold ret in *; congruence).
        -- replace (n - S k)%nat with m by lia.
           split; [lia|]. split; [exists p; auto|].
           intros j q Hj Hq. apply (Hf (S j) q); [lia | exact Hq].
Qed.

Lemma hand_rank_iff_first_match cards i :
  PokerHand.hand_rank cards = ret i <->
  exists n, i = Z.of_nat n /\ first_match cards n.
Proof.
  rewrite hand_rank_find_first. unfold first_match.
  split.
  - destruct (find_first categories cards 0) as [e|n] eqn:E; cbn [bind ret]; [discriminate|].
    intro H. injection H as <-. exists n. split; [reflexivity|].
    apply find_first_spec in E. rewrite Nat.sub_0_r in E. tauto.
  - intros (n & -> & H1 & H2).
    assert (E : find_first categories cards 0 = ret n).
    { apply find_first_spec. rewrite Nat.sub_0_r. split; [lia|]. split; assumption. }
    rewrite E. reflexivity.
Qed.

Lemma hand_rank_range cards i : PokerHand.hand_rank cards = ret i -> 0 <= i < 10.
Proof.
  unfold PokerHand.hand_rank.
  destruct (PokerHand.next_hand cards PokerHand.hand_order) as [e|hand]; cbn [bind ret];
    [discriminate|].
  intro H. apply index_range in H. exact H.
Qed.

(** ** Sorting, list equality and sets *)

Lemma strs_eqb_eq xs ys : strs_eqb xs ys = true <-> xs = ys.
Proof.
  revert ys. induction xs as [|x xs IH]; intros [|y ys]; cbn [strs_eqb];
    try (split; [discriminate|discriminate]); [tauto|].
  rewrite andb_true_iff, String.eqb_eq, IH.
  split; [intros [-> ->]; reflexivity | intro E; injection E; auto].
Qed.

Lemma insert_sorted_Permutation x l : Permutation (insert_sorted x l) (x :: l).
Proof.
  induction l as [|y l IH]; cbn [insert_sorted]; [reflexivity|].
  destruct (String.leb x y); [reflexivity|].
  rewrite IH. apply perm_swap.
Qed.

Lemma sorted_Permutation l : Permutation (sorted l) l.
Proof.
  induction l as [|x l IH]; cbn [sorted fold_right]; [reflexivity|].
  fold (sorted l). rewrite insert_sorted_Permutation. now constructor.
Qed.

Lemma nodup_length_le (l : list string) :
  (List.length (nodup string_dec l) <= List.length l)%nat.
Proof.
  induction l as [|x l IH]; cbn [nodup List.length]; [lia|].
  destruct (in_dec string_dec x l); cbn [List.length]; lia.
Qed.

Lemma nodup_length_NoDup (l : list string) :
  List.length (nodup string_dec l) = List.length l -> NoDup l.
Proof.
  induction l as [|x l IH]; cbn [nodup List.length]; intro H; [constructor|].
  pose proof (nodup_length_le l).
  destruct (in_dec string_dec x l); cbn [List.length] in H; [lia|].
  constructor; [assumption | apply IH; lia].
Qed.

(** ** PokerHand: a straight that is a flush *)

Lemma is_flush_length cards : PokerHand.is_flush cards = true -> List.length cards = 5%nat.
Proof.
  unfold PokerHand.is_flush, len. rewrite andb_true_iff, !Z.eqb_eq. lia.
Qed.

Lemma is_straight_cases cards :
  PokerHand.is_straight cards = ret true ->
  (In "A" (PokerHand.ranks cards) /\
   sorted (PokerHand.ranks cards) = ["2"; "3"; "4"; "5"; "A"]) \/
  (~ In "A" (PokerHand.ranks cards) /\
   List.length (nodup string_dec (PokerHand.ranks cards)) = 5%nat).
Proof.
  unfold PokerHand.is_straight.
  destruct (str_in "A" (PokerHand.ranks cards)) eqn:EA.
  - intro H. left. split; [now apply str_in_In|].
    apply strs_eqb_eq. unfold ret in H. congruence.
  - destruct (mapM (index RANKS) (PokerHand.ranks cards)) as [e|idx]; cbn [bind ret];
      [discriminate|].
    destruct (py_max idx) as [e|hi]; cbn [bind ret]; [discriminate|].
    destruct (py_min idx) as [e|lo]; cbn [bind ret]; [discriminate|].
    intro H. right. split.
    + rewrite <- str_in_In. congruence.
    + injection H as H. apply andb_true_iff in H. destruct H as [H _].
      unfold PokerHand._all_unique_ranks, set_of, len in H.
      apply Z.eqb_eq in H. lia.
Qed.

Lemma straight_five_NoDup cards :
  PokerHand.is_straight cards = ret true -> List.length cards = 5%nat ->
  NoDup (PokerHand.ranks cards).
Proof.
  intros Hs Hl. destruct (is_straight_cases cards Hs) as [[_ E]|[_ E]].
  - apply (Permutation_NoDup (l := sorted (PokerHand.ranks cards)));
      [apply sorted_Permutation|].
    rewrite E. apply (NoDup_count_occ' string_dec).
    intros x Hx. cbn in Hx.
    repeat (destruct Hx as [<-|Hx]; [reflexivity|]). contradiction.
  - apply nodup_length_NoDup. rewrite E.
    unfold PokerHand.ranks. rewrite length_map. auto.
Qed.

Lemma straight_not_royal cards :
  PokerHand.is_straight cards = ret true -> PokerHand.is_royal_flush cards = false.
Proof.
  intro Hs. unfold PokerHand.is_royal_flush.
  destruct (strs_eqb (sorted (PokerHand.ranks cards)) ["10"; "A"; "J"; "K"; "Q"]) eqn:E;
    [|reflexivity].
  exfalso. apply strs_eqb_eq in E.
  destruct (is_straight_cases cards Hs) as [[_ E']|[HA _]].
  - rewrite E in E'. discriminate.
  - apply HA. apply (Permutation_in (l := sorted (PokerHand.ranks cards)));
      [apply sorted_Permutation|].
    rewrite E. cbn. tauto.
Qed.

Lemma NoDup_ranks_multiplicity cards n :
  NoDup (PokerHand.ranks cards) -> n <> 1 ->
  int_in n (values (Counter String.eqb (PokerHand.ranks cards))) = false.
Proof.
  intros Hnd Hn.
  destruct (int_in n _) eqn:E; [|reflexivity].
  apply rank_multiplicity in E. destruct E as (r & Hr & ->).
  unfold rank_count in Hn.
  rewrite (proj1 (NoDup_count_occ' string_dec _) Hnd r Hr) in Hn. lia.
Qed.

Lemma straight_and_flush_rank cards :
  PokerHand.is_straight cards = ret true -> PokerHand.is_flush cards = true ->
  PokerHand.hand_rank cards = ret 2.
Proof.
  intros Hs Hf.
  rewrite hand_rank_find_first. unfold categories. cbn [find_first].
  rewrite (straight_not_royal cards Hs).
  unfold PokerHand.is_four_kind.
  rewrite NoDup_ranks_multiplicity;
    [| apply straight_five_NoDup; [exact Hs | now apply is_flush_length] | lia].
  unfold PokerHand.is_straight_flush, py_and. rewrite Hs, Hf. reflexivity.
Qed.

(** ** PokerHand: comparisons *)

(** C8.  For hands whose ranks are [a] and [b], [A < B] holds exactly
    when [a] is numerically greater than [b] and [A > B] exactly when [a]
    is numerically smaller; so a hand classified as flush compares
    greater than a hand classified as pair. *)
Theorem comparison_inverts_hand_rank :
  (forall A B a b,
     PokerHand.hand_rank A = ret a -> PokerHand.hand_rank B = ret b ->
     (PokerHand.lt A B = ret true <-> a > b) /\
     (PokerHand.gt A B = ret true <-> a < b) /\
     PokerHand.lt A B = ret (a >? b) /\
     PokerHand.gt A B = ret (a <? b)) /\
  (forall A B, classified_as A "flush" -> classified_as B "pair" ->
     PokerHand.gt A B = ret true /\ PokerHand.lt B A = ret true).
Proof.
  split.
  - intros A B a b HA HB. unfold PokerHand.lt, PokerHand.gt. rewrite HA, HB.
    cbn [bind ret]. unfold ret.
    repeat split; try reflexivity.
    + intro H. injection H as H. apply Z.gtb_lt in H. lia.
    + intro H. f_equal. apply Z.gtb_lt. lia.
    + intro H. injection H as H. now apply Z.ltb_lt in H.
    + intro H. f_equal. now apply Z.ltb_lt.
  - intros A B (a & Ha & HA) (b & Hb & HB).
    cbn in Ha, Hb. injection Ha as <-. injection Hb as <-.
    unfold PokerHand.lt, PokerHand.gt. rewrite HA, HB. split; reflexivity.
Qed.

Lemma comparison_inverts_hand_rank_witness :
  PokerHand.gt [C "2" "H"; C "5" "H"; C "7" "H"; C "9" "H"; C "J" "H"]
               [C "2" "H"; C "2" "D"; C "5" "C"; C "7" "S"; C "9" "H"] = ret true /\
  PokerHand.lt [C "2" "H"; C "2" "D"; C "5" "C"; C "7" "S"; C "9" "H"]
               [C "2" "H"; C "5" "H"; C "7" "H"; C "9" "H"; C "J" "H"] = ret true.
Proof.
  destruct comparison_inverts_hand_rank as [_ H].
  apply H.
  - exists 4. split; reflexivity.
  - exists 8. split; reflexivity.
Defined.

(** ** Combinations *)

Lemma drawn_from_nil {A} (l : list A) : drawn_from [] l.
Proof. induction l; constructor; assumption. Qed.

Lemma drawn_from_firstn {A} (l : list A) n : drawn_from (firstn n l) l.
Proof.
  revert n; induction l as [|x l IH]; intros [|n]; cbn [firstn];
    try apply drawn_from_nil.
  apply drawn_take, IH.
Qed.

(** [combinations xs r] lists exactly the [r]-element draws from [xs]. *)
Lemma combinations_spec {A} (xs : list A) : forall r c,
  In c (combinations xs r) <-> drawn_from c xs /\ List.length c = r.
Proof.
  induction xs as [|x t IH]; intros r c.
  - destruct r; cbn [combinations In].
    + split.
      * intros [<-|[]]. split; [constructor | reflexivity].
      * intros [H _]. inversion H. now left.
    + split; [intros [] | intros [H Hl]; inversion H; subst; discriminate].
  - destruct r as [|r]; cbn [combinations In].
    + split.
      * intros [<-|[]]. split; [apply drawn_from_nil | reflexivity].
      * intros [_ Hl]. left. destruct c; [reflexivity | discriminate].
    + rewrite in_app_iff, in_map_iff. split.
      * intros [(c' & <- & Hin)|Hin].
        -- apply IH in Hin. destruct Hin as [Hd <-].
           split; [now apply drawn_take | reflexivity].
        -- apply IH in Hin. destruct Hin as [Hd Hl].
           split; [now apply drawn_skip | exact Hl].
      * intros [Hd Hl]. inversion Hd; subst.
        -- right. apply IH. split; assumption.
        -- left. eexists. split; [reflexivity|]. apply IH.
           split; [assumption|]. cbn in Hl. lia.
Qed.

Lemma combinations_short {A} (xs : list A) r :
  (List.length xs < r)%nat -> combinations xs r = [].
Proof.
  revert r; induction xs as [|x t IH]; intros [|r] H; cbn [List.length] in H;
    try lia; cbn [combinations]; [reflexivity|].
  rewrite !IH by lia. reflexivity.
Qed.

(** ** HoldEmHand *)

Lemma number_lt_spec a b :
  number_lt a b = true <-> (number_value a < number_value b)%Q.
Proof.
  unfold number_lt. rewrite negb_true_iff.
  destruct (Qle_bool (number_value b) (number_value a)) eqn:E.
  - apply Qle_bool_iff in E. split; [discriminate | intro; lra].
  - split; [intros _ | reflexivity].
    apply Qnot_le_lt. intro H. apply Qle_bool_iff in H. congruence.
Qed.

(** The loop keeps the smallest rank seen so far. *)
Lemma best_from_spec hole : forall combos best,
  (forall combo, In combo combos -> exists r, PokerHand.hand_rank (hole ++ combo) = ret r) ->
  exists best',
    HoldEmHand.best_from hole combos best = ret best' /\
    (best' = best \/
     exists combo r, In combo combos /\
       PokerHand.hand_rank (hole ++ combo) = ret r /\ best' = Int r) /\
    (number_value best' <= number_value best)%Q /\
    (forall combo r, In combo combos ->
       PokerHand.hand_rank (hole ++ combo) = ret r ->
       (number_value best' <= inject_Z r)%Q).
Proof.
  induction combos as [|c rest IH]; intros best Hdef.
  - exists best. cbn [HoldEmHand.best_from].
    split; [reflexivity|]. split; [now left|]. split; [lra|]. intros ? ? [].
  - destruct (Hdef c (or_introl eq_refl)) as [r Hr].
    cbn [HoldEmHand.best_from]. rewrite Hr. cbn [bind ret].
    set (best1 := if number_lt (Int r) best then Int r else best).
    assert (H1 : (number_value best1 <= number_value best)%Q /\
                 (number_value best1 <= inject_Z r)%Q /\
                 (best1 = best \/ best1 = Int r)).
    { subst best1. destruct (number_lt (Int r) best) eqn:E.
      - apply number_lt_spec in E. cbn [number_value] in *.
        split; [lra|]. split; [lra | now right].
      - assert (~ (number_value (Int r) < number_value best)%Q) as E'.
        { rewrite <- number_lt_spec. congruence. }
        cbn [number_value] in *. split; [lra|]. split; [lra | now left]. }
    destruct H1 as (Hle & Hr1 & Hor).
    destruct (IH best1 (fun combo Hin => Hdef combo (or_intror Hin)))
      as (best' & Hrun & Horigin & Hle' & Hall).
    exists best'. split; [exact Hrun|]. split; [|split].
    + destruct Horigin as [->|(combo & r' & Hin & Hr' & ->)].
      * destruct Hor as [->| ->]; [now left|].
        right. exists c, r. split; [now left | auto].
      * right. exists combo, r'. split; [now right | auto].
    + lra.
    + intros combo r' [<-|Hin] Hr'.
      * rewrite Hr in Hr'. injection Hr' as <-. lra.
      * eapply Hall; eauto.
Qed.

Lemma holdem_loop hole community :
  community <> [] ->
  HoldEmHand.hand_rank hole community =
  HoldEmHand.best_from hole (combinations community 3) HoldEmHand.sentinel.
Proof. destruct community; [congruence | reflexivity]. Qed.

(** The loop stops at the first hand whose rank raises. *)
Lemma best_from_raises hole : forall combos best,
  (exists combo e, In combo combos /\ PokerHand.hand_rank (hole ++ combo) = raise e) ->
  exists e', HoldEmHand.best_from hole combos best = raise e'.
Proof.
  induction combos as [|c rest IH]; intros best (combo & e & Hin & He); [destruct Hin|].
  cbn [HoldEmHand.best_from].
  destruct (PokerHand.hand_rank (hole ++ c)) as [e0|r] eqn:Hc; cbn [bind ret].
  - exists e0. reflexivity.
  - destruct Hin as [<-|Hin]; [unfold raise in He; congruence|].
    apply IH. exists combo, e. auto.
Qed.

(** C7.  When the community pool has at least 3 cards (3, 4 or 5 in
    particular) and each 5-card hand made of the hole cards and 3 cards
    drawn from the pool has a rank, [hand_rank] is the least of those
    ranks: it is the rank of one such hand and no such hand has a smaller
    one. *)
Theorem holdem_hand_rank_is_minimum (hole community : list Card) :
  (3 <= List.length community)%nat ->
  (forall combo, drawn_from combo community -> List.length combo = 3%nat ->
     exists r, PokerHand.hand_rank (hole ++ combo) = ret r) ->
  exists m,
    HoldEmHand.hand_rank hole community = ret (Int m) /\
    (exists combo, drawn_from combo community /\ List.length combo = 3%nat /\
       PokerHand.hand_rank (hole ++ combo) = ret m) /\
    (forall combo r, drawn_from combo community -> List.length combo = 3%nat ->
       PokerHand.hand_rank (hole ++ combo) = ret r -> m <= r).
Proof.
  intros Hlen Hdef.
  rewrite holdem_loop by (destruct community; [cbn in Hlen; lia | discriminate]).
  destruct (best_from_spec hole (combinations community 3) HoldEmHand.sentinel)
    as (best' & Hrun & Horigin & _ & Hall).
  { intros combo Hin. apply combinations_spec in Hin. destruct Hin; auto. }
  assert (Hfirst : In (firstn 3 community) (combinations community 3)).
  { apply combinations_spec. split; [apply drawn_from_firstn|].
    rewrite length_firstn. lia. }
  destruct Horigin as [->|(combo & m & Hin & Hm & ->)].
  - exfalso.
    destruct (Hdef (firstn 3 community)) as [r Hr];
      [apply drawn_from_firstn | rewrite length_firstn; lia |].
    pose proof (hand_rank_range _ _ Hr) as Hrange.
    pose proof (Hall _ _ Hfirst Hr) as Hq.
    cbn [number_value HoldEmHand.sentinel] in Hq.
    assert (inject_Z r < 1000000 # 1)%Q; [|lra].
    change (1000000 # 1) with (inject_Z 1000000). rewrite <- Zlt_Qlt. lia.
  - exists m. split; [exact Hrun|]. split.
    + exists combo. apply combinations_spec in Hin. destruct Hin. auto.
    + intros combo' r Hd Hl Hr.
      assert (Hin' : In combo' (combinations community 3)).
      { apply combinations_spec. auto. }
      pose proof (Hall _ _ Hin' Hr) as Hq. cbn [number_value] in Hq.
      rewrite Zle_Qle. exact Hq.
Qed.

(** C10.  With a community pool of 1 or 2 cards the loop body never
    runs: [hand_rank] returns the sentinel [1e6] without raising, and the
    sentinel equals the index of no category. *)
Theorem holdem_short_pool_sentinel (hole community : list Card) :
  (1 <= List.length community <= 2)%nat ->
  HoldEmHand.hand_rank hole community = ret HoldEmHand.sentinel /\
  number_value HoldEmHand.sentinel = inject_Z 1000000 /\
  (forall name i, index PokerHand.hand_order name = ret i ->
     number_eq HoldEmHand.sentinel (Int i) = false).
Proof.
  intro Hlen. split; [|split].
  - rewrite holdem_loop by (destruct community; [cbn in Hlen; lia | discriminate]).
    rewrite combinations_short by lia. reflexivity.
  - reflexivity.
  - intros name i Hi. apply index_range in Hi. change (len PokerHand.hand_order) with 10 in Hi.
    unfold number_eq. cbn [number_value HoldEmHand.sentinel].
    destruct (Qeq_bool (1000000 # 1) (inject_Z i)) eqn:E; [|reflexivity].
    apply Qeq_bool_eq in E. unfold Qeq in E. cbn in E. lia.
Qed.

Lemma holdem_short_pool_sentinel_witness :
  HoldEmHand.hand_rank [C "A" "H"; C "A" "S"] [C "2" "H"; C "3" "H"] =
    ret HoldEmHand.sentinel /\
  number_value HoldEmHand.sentinel = inject_Z 1000000 /\
  (forall name i, index PokerHand.hand_order name = ret i ->
     number_eq HoldEmHand.sentinel (Int i) = false).
Proof.
  apply (holdem_short_pool_sentinel [C "A" "H"; C "A" "S"] [C "2" "H"; C "3" "H"]).
  cbn. lia.
Defined.

Lemma holdem_hand_rank_is_minimum_witness :
  exists m,
    HoldEmHand.hand_rank [C "A" "H"; C "A" "S"]
      [C "2" "H"; C "3" "H"; C "4" "H"; C "5" "H"; C "K" "D"] = ret (Int m) /\
    (exists combo,
       drawn_from combo [C "2" "H"; C "3" "H"; C "4" "H"; C "5" "H"; C "K" "D"] /\
       List.length combo = 3%nat /\
       PokerHand.hand_rank ([C "A" "H"; C "A" "S"] ++ combo) = ret m) /\
    (forall combo r,
       drawn_from combo [C "2" "H"; C "3" "H"; C "4" "H"; C "5" "H"; C "K" "D"] ->
       List.length combo = 3%nat ->
       PokerHand.hand_rank ([C "A" "H"; C "A" "S"] ++ combo) = ret r -> m <= r).
Proof.
  apply (holdem_hand_rank_is_minimum [C "A" "H"; C "A" "S"]
           [C "2" "H"; C "3" "H"; C "4" "H"; C "5" "H"; C "K" "D"]).
  - cbn. lia.
  - intros combo Hd Hl.
    assert (H : In combo (combinations
              [C "2" "H"; C "3" "H"; C "4" "H"; C "5" "H"; C "K" "D"] 3)).
    { apply combinations_spec. split; assumption. }
    cbn in H.
    repeat (destruct H as [<-|H]; [eexists; vm_compute; reflexivity|]).
    contradiction.
Defined.

(** ** PokerHand: when [hand_rank] has a value *)

Lemma index_RANKS_defined r : In r RANKS -> exists i, index RANKS r = ret i.
Proof.
  intro H. cbn in H.
  repeat (destruct H as [<-|H]; [eexists; reflexivity|]). contradiction.
Qed.

Lemma mapM_index_defined rs :
  Forall (fun r => In r RANKS) rs ->
  exists idx, mapM (index RANKS) rs = ret idx /\ List.length idx = List.length rs.
Proof.
  induction 1 as [|r rs Hr _ (idx & E & Hl)]; cbn [mapM].
  - exists []. split; reflexivity.
  - destruct (index_RANKS_defined r Hr) as [i ->]. rewrite E. cbn [bind ret].
    exists (i :: idx). split; [reflexivity | cbn; lia].
Qed.

(** On a non-empty hand of deck cards [is_straight] does not raise. *)
Lemma is_straight_defined cards :
  Forall valid_card cards -> cards <> [] ->
  exists b, PokerHand.is_straight cards = ret b.
Proof.
  intros Hv Hne. unfold PokerHand.is_straight.
  destruct (str_in "A" (PokerHand.ranks cards)); [eexists; reflexivity|].
  destruct (mapM_index_defined (PokerHand.ranks cards)) as (idx & -> & Hl).
  { unfold PokerHand.ranks. apply Forall_map.
    eapply Forall_impl; [|exact Hv]. intros c [H _]. exact H. }
  destruct idx as [|i idx].
  - destruct cards; [congruence | discriminate].
  - cbn [bind ret py_max py_min]. eexists; reflexivity.
Qed.

Lemma find_first_defined cards ps : forall k,
  (forall p, In p ps -> exists b, p cards = ret b) ->
  (exists p, In p ps /\ p cards = ret true) ->
  exists n, find_first ps cards k = ret n.
Proof.
  induction ps as [|p0 ps IH]; intros k Hdef (p & Hin & Hp); [destruct Hin|].
  cbn [find_first].
  destruct (Hdef p0 (or_introl eq_refl)) as [[|] E0]; rewrite E0; cbn [bind ret].
  - eexists; reflexivity.
  - apply IH.
    + intros q Hq. apply Hdef. now right.
    + destruct Hin as [<-|Hin]; [unfold ret in *; congruence|].
      exists p. auto.
Qed.

Lemma categories_defined cards b :
  PokerHand.is_straight cards = ret b ->
  forall p, In p categories -> exists b', p cards = ret b'.
Proof.
  intros Hs p Hin. unfold categories in Hin. cbn [In] in Hin.
  unfold PokerHand.is_straight_flush, py_and, PokerHand.is_high_card in Hin.
  repeat (destruct Hin as [<-|Hin];
          [rewrite ?Hs; cbn [bind ret]; try destruct b; eexists; reflexivity|]).
  contradiction.
Qed.

Lemma rank_count_bound r cards : (rank_count r cards <= List.length cards)%nat.
Proof.
  unfold rank_count, PokerHand.ranks.
  rewrite <- (length_map rank cards). apply count_occ_bound.
Qed.

(** On five cards that are not all of one rank some category matches. *)
Lemma some_category_matches cards b :
  PokerHand.is_straight cards = ret b ->
  List.length cards = 5%nat ->
  (forall r, rank_count r cards <> 5%nat) ->
  exists p, In p categories /\ p cards = ret true.
Proof.
  intros Hs Hlen Hfive. unfold categories.
  destruct (PokerHand.is_four_kind cards) eqn:E4;
    [eexists; split; [right; left; reflexivity | cbn; now rewrite E4]|].
  destruct (PokerHand.is_flush cards) eqn:Ef;
    [eexists; split; [do 4 right; left; reflexivity | cbn; now rewrite Ef]|].
  destruct b; [eexists; split; [do 5 right; left; reflexivity | exact Hs]|].
  destruct (PokerHand.is_three_kind cards) eqn:E3;
    [eexists; split; [do 6 right; left; reflexivity | cbn; now rewrite E3]|].
  destruct (PokerHand.is_pair cards) eqn:E2;
    [eexists; split; [do 8 right; left; reflexivity | cbn; now rewrite E2]|].
  exists PokerHand.is_high_card. split; [do 9 right; left; reflexivity|].
  unfold PokerHand.is_high_card. rewrite Hs. cbn [bind ret]. rewrite Ef. cbn [negb andb].
  assert (Hnd : NoDup (PokerHand.ranks cards)).
  { apply (NoDup_count_occ' string_dec). intros r Hr.
    pose proof (proj1 (count_occ_In string_dec _ r) Hr) as Hpos.
    pose proof (rank_count_bound r cards) as Hle.
    pose proof (Hfive r) as H5.
    fold (rank_count r cards) in *.
    assert (H2 : rank_count r cards <> 2%nat).
    { intro E. unfold PokerHand.is_pair in E2.
      assert (int_in 2 (values (Counter String.eqb (PokerHand.ranks cards))) = true);
        [|congruence].
      apply rank_multiplicity. exists r. split; [exact Hr | lia]. }
    assert (H3 : rank_count r cards <> 3%nat).
    { intro E. unfold PokerHand.is_three_kind in E3.
      assert (int_in 3 (values (Counter String.eqb (PokerHand.ranks cards))) = true);
        [|congruence].
      apply rank_multiplicity. exists r. split; [exact Hr | lia]. }
    assert (H4 : rank_count r cards <> 4%nat).
    { intro E. unfold PokerHand.is_four_kind in E4.
      assert (int_in 4 (values (Counter String.eqb (PokerHand.ranks cards))) = true);
        [|congruence].
      apply rank_multiplicity. exists r. split; [exact Hr | lia]. }
    lia. }
  unfold set_of, len. rewrite (nodup_fixed_point string_dec Hnd).
  unfold PokerHand.ranks. rewrite length_map, Hlen. reflexivity.
Qed.

(** [hand_rank] has a value on every hand of five deck cards that are
    not all of one rank. *)
Lemma hand_rank_defined cards :
  Forall valid_card cards -> List.length cards = 5%nat ->
  (forall r, rank_count r cards <> 5%nat) ->
  exists i, PokerHand.hand_rank cards = ret i.
Proof.
  intros Hv Hlen Hfive.
  destruct (is_straight_defined cards Hv) as [b Hs];
    [destruct cards; [discriminate | congruence]|].
  destruct (find_first_defined cards categories 0
              (categories_defined cards b Hs)
              (some_category_matches cards b Hs Hlen Hfive)) as [n Hn].
  exists (Z.of_nat n). rewrite hand_rank_find_first, Hn. reflexivity.
Qed.

(** C6.  [hand_rank] returns [i] exactly when category number [i], in
    the order royal flush, four of a kind, straight flush, full house,
    flush, straight, three of a kind, two pair, pair, high card, is the
    first that matches; a hand that is both a straight and a flush is
    classified as a straight flush; and on five deck cards that are not
    all of one rank some category matches, so [hand_rank] has a value. *)
Theorem hand_rank_first_match (cards : list Card) :
  (forall i, PokerHand.hand_rank cards = ret i <->
             exists n, i = Z.of_nat n /\ first_match cards n) /\
  (PokerHand.is_straight cards = ret true -> PokerHand.is_flush cards = true ->
   classified_as cards "straight_flush") /\
  (Forall valid_card cards -> List.length cards = 5%nat ->
   (forall r, rank_count r cards <> 5%nat) ->
   exists i, PokerHand.hand_rank cards = ret i).
Proof.
  split; [|split].
  - intro i. apply hand_rank_iff_first_match.
  - intros Hs Hf. exists 2. split; [reflexivity|].
    now apply straight_and_flush_rank.
  - apply hand_rank_defined.
Qed.

Lemma hand_rank_first_match_witness :
  classified_as [C "2" "H"; C "3" "H"; C "4" "H"; C "5" "H"; C "6" "H"] "straight_flush" /\
  exists n, 2 = Z.of_nat n /\
            first_match [C "2" "H"; C "3" "H"; C "4" "H"; C "5" "H"; C "6" "H"] n.
Proof.
  destruct (hand_rank_first_match [C "2" "H"; C "3" "H"; C "4" "H"; C "5" "H"; C "6" "H"])
    as (H1 & H2 & _).
  split.
  - apply H2; reflexivity.
  - apply H1. reflexivity.
Defined.

(** Five cards of one rank, which takes more than one deck, match no
    category: [hand_rank] raises [StopIteration]. *)
Lemma hand_rank_five_of_a_rank :
  PokerHand.hand_rank [C "2" "H"; C "2" "H"; C "2" "D"; C "2" "C"; C "2" "S"]
  = raise StopIteration.
Proof. reflexivity. Qed.

Lemma rank_count_filter r cards :
  rank_count r cards =
  List.length (filter (fun c => String.eqb (rank c) r) cards).
Proof.
  unfold rank_count, PokerHand.ranks.
  induction cards as [|c cards IH]; cbn [map count_occ filter]; [reflexivity|].
  destruct (string_dec (rank c) r) as [E|E].
  - rewrite (proj2 (String.eqb_eq _ _) E). cbn [List.length]. now rewrite IH.
  - rewrite (proj2 (String.eqb_neq _ _) E). exact IH.
Qed.

(** Distinct cards of one deck hold at most four cards of a rank. *)
Lemma rank_count_single_deck r cards :
  Forall valid_card cards -> NoDup cards -> (rank_count r cards <= 4)%nat.
Proof.
  intros Hv Hnd. rewrite rank_count_filter.
  change 4%nat with (List.length (map (mkCard r) SUITS)).
  apply NoDup_incl_length; [now apply NoDup_filter|].
  intros c Hc. apply filter_In in Hc. destruct Hc as [Hin E].
  apply String.eqb_eq in E.
  rewrite Forall_forall in Hv. destruct (Hv c Hin) as [_ Hs].
  apply in_map_iff. exists (suit c). split; [|exact Hs].
  destruct c; cbn in *; congruence.
Qed.

(** On five distinct cards of one deck [hand_rank] never raises. *)
Lemma hand_rank_defined_single_deck cards :
  Forall valid_card cards -> NoDup cards -> List.length cards = 5%nat ->
  exists i, PokerHand.hand_rank cards = ret i.
Proof.
  intros Hv Hnd Hlen. apply hand_rank_defined; auto.
  intros r E. pose proof (rank_count_single_deck r cards Hv Hnd). lia.
Qed.

(** ** HoldEmHand on cards of one deck *)

Lemma drawn_from_In {A} (c l : list A) :
  drawn_from c l -> forall x, In x c -> In x l.
Proof.
  induction 1 as [|c y l _ IH|c y l _ IH]; intros x Hx; cbn in *; auto.
  destruct Hx; auto.
Qed.

Lemma drawn_from_NoDup {A} (c l : list A) :
  drawn_from c l -> NoDup l -> NoDup c.
Proof.
  induction 1 as [|c y l _ IH|c y l Hd IH]; intro Hnd; auto.
  - inversion Hnd; auto.
  - inversion Hnd as [|? ? Hnotin Hnd']; subst.
    constructor; [|auto].
    intro Hin. apply Hnotin. eapply drawn_from_In; eauto.
Qed.

Lemma drawn_from_app {A} (h c l : list A) :
  drawn_from c l -> drawn_from (h ++ c) (h ++ l).
Proof.
  intro H. induction h as [|x h IH]; cbn; [exact H | now apply drawn_take].
Qed.

(** With distinct cards of one deck, two of them in hand, every hand the
    loop of [HoldEmHand.hand_rank] builds has a rank. *)
Lemma holdem_hands_defined_single_deck hole community :
  Forall valid_card (hole ++ community) -> NoDup (hole ++ community) ->
  List.length hole = 2%nat ->
  forall combo, drawn_from combo community -> List.length combo = 3%nat ->
    exists r, PokerHand.hand_rank (hole ++ combo) = ret r.
Proof.
  intros Hv Hnd Hh combo Hd Hl.
  pose proof (drawn_from_app hole _ _ Hd) as Hd'.
  apply hand_rank_defined_single_deck.
  - rewrite Forall_forall in *. intros x Hx. apply Hv.
    eapply drawn_from_In; eauto.
  - eapply drawn_from_NoDup; eauto.
  - rewrite length_app. lia.
Qed.

(** ** HoldEmHand with an empty pool *)

Lemma two_hole_cards_ranks :
  forallb (fun c1 => forallb (fun c2 =>
    match PokerHand.hand_rank [c1; c2], PokerHand.is_high_card [c1; c2] with
    | inr i, inr false =>
        negb (i =? 9) && (if String.eqb (rank c1) (rank c2) then i =? 8 else true)
    | _, _ => false
    end) one_deck) one_deck = true.
Proof. vm_compute. reflexivity. Qed.

(** C3 (as amended).  With two deck cards in hand and an empty community
    pool, [hand_rank] is the plain PokerHand rank of the two hole cards
    (the same value or the same exception).  That rank is never the
    high-card one: [is_high_card] is false on two cards.  Two hole cards
    of one rank are ranked 8, a pair. *)
Theorem holdem_empty_pool_delegates (c1 c2 : Card) :
  valid_card c1 -> valid_card c2 ->
  HoldEmHand.hand_rank [c1; c2] [] =
    (r <- PokerHand.hand_rank [c1; c2] ;; ret (Int r)) /\
  PokerHand.is_high_card [c1; c2] = ret false /\
  ~ classified_as [c1; c2] "high_card" /\
  (rank c1 = rank c2 ->
   classified_as [c1; c2] "pair" /\
   HoldEmHand.hand_rank [c1; c2] [] = ret (Int 8)).
Proof.
  intros H1 H2. apply valid_card_iff in H1, H2.
  pose proof two_hole_cards_ranks as H.
  rewrite forallb_forall in H. specialize (H c1 H1).
  rewrite forallb_forall in H. specialize (H c2 H2).
  cbn [HoldEmHand.hand_rank].
  split; [reflexivity|].
  destruct (PokerHand.hand_rank [c1; c2]) as [e|i] eqn:Hr; [discriminate|].
  destruct (PokerHand.is_high_card [c1; c2]) as [e|[|]]; try discriminate.
  apply andb_true_iff in H. destruct H as [Hn9 H8].
  apply negb_true_iff, Z.eqb_neq in Hn9.
  split; [reflexivity|]. split.
  - intros (k & Hk & Hk'). cbn in Hk. unfold ret in *. congruence.
  - intro E. apply String.eqb_eq in E. rewrite E in H8. apply Z.eqb_eq in H8. subst i.
    split; [|reflexivity]. exists 8. split; [reflexivity | exact Hr].
Qed.

Lemma holdem_empty_pool_delegates_witness :
  HoldEmHand.hand_rank [C "A" "H"; C "A" "S"] [] =
    (r <- PokerHand.hand_rank [C "A" "H"; C "A" "S"] ;; ret (Int r)) /\
  PokerHand.is_high_card [C "A" "H"; C "A" "S"] = ret false /\
  ~ classified_as [C "A" "H"; C "A" "S"] "high_card" /\
  (rank (C "A" "H") = rank (C "A" "S") ->
   classified_as [C "A" "H"; C "A" "S"] "pair" /\
   HoldEmHand.hand_rank [C "A" "H"; C "A" "S"] [] = ret (Int 8)).
Proof.
  apply (holdem_empty_pool_delegates (C "A" "H") (C "A" "S"));
    split; vm_compute; tauto.
Defined.

(** C3, as stated, fails: the pocket pair A-A with an empty pool is
    ranked 8 (pair), it is not classified as high card. *)
Lemma holdem_pocket_pair_not_high_card :
  HoldEmHand.hand_rank [C "A" "H"; C "A" "S"] [] = ret (Int 8) /\
  index PokerHand.hand_order "high_card" = ret 9 /\
  PokerHand.is_high_card [C "A" "H"; C "A" "S"] = ret false /\
  ~ classified_as [C "A" "H"; C "A" "S"] "high_card".
Proof.
  split; [reflexivity|]. split; [reflexivity|]. split; [reflexivity|].
  intros (i & Hi & Hr). vm_compute in Hi, Hr. congruence.
Qed.

(** ** Straights that end at the ace *)

(** C2.  Whenever the five ranks are 10, J, Q, K, A in some order, they
    occupy the five consecutive positions 8..12 of the rank order, yet
    [is_straight] answers false. *)
Theorem ace_high_straight_rejected (cards : list Card) :
  Permutation (PokerHand.ranks cards) ["10"; "J"; "Q"; "K"; "A"] ->
  consecutive_ranks cards /\ PokerHand.is_straight cards = ret false.
Proof.
  intro HP. split.
  - exists 8%nat. split; [lia | exact HP].
  - unfold PokerHand.is_straight.
    assert (HA : str_in "A" (PokerHand.ranks cards) = true).
    { apply str_in_In. apply (Permutation_in _ (Permutation_sym HP)). cbn. tauto. }
    rewrite HA. f_equal.
    destruct (strs_eqb (sorted (PokerHand.ranks cards)) ["2"; "3"; "4"; "5"; "A"]) eqn:E;
      [|reflexivity].
    exfalso. apply strs_eqb_eq in E.
    assert (H2 : In "2" (PokerHand.ranks cards)).
    { apply (Permutation_in _ (sorted_Permutation _)). rewrite E. cbn. tauto. }
    apply (Permutation_in _ HP) in H2. cbn in H2.
    repeat (destruct H2 as [H2|H2]; [discriminate|]). contradiction.
Qed.

Lemma ace_high_straight_rejected_witness :
  consecutive_ranks [C "10" "H"; C "J" "D"; C "Q" "C"; C "K" "S"; C "A" "H"] /\
  PokerHand.is_straight [C "10" "H"; C "J" "D"; C "Q" "C"; C "K" "S"; C "A" "H"]
  = ret false.
Proof.
  apply (ace_high_straight_rejected
           [C "10" "H"; C "J" "D"; C "Q" "C"; C "K" "S"; C "A" "H"]).
  cbn. reflexivity.
Defined.

(** The ace-high straight in mixed suits ends up classified as high card. *)
Lemma ace_high_straight_is_high_card :
  classified_as [C "10" "H"; C "J" "D"; C "Q" "C"; C "K" "S"; C "A" "H"] "high_card".
Proof. exists 9. split; reflexivity. Qed.

(** ** Sorting is canonical *)

Lemma string_leb_trans a : forall b c,
  String.leb a b = true -> String.leb b c = true -> String.leb a c = true.
Proof.
  unfold String.leb.
  induction a as [|x a IH]; intros [|y b] [|z c]; cbn [String.compare];
    try reflexivity; try discriminate.
  unfold Ascii.compare.
  destruct (N.compare_spec (N_of_ascii x) (N_of_ascii y)) as [Exy|Lxy|Gxy];
    destruct (N.compare_spec (N_of_ascii y) (N_of_ascii z)) as [Eyz|Lyz|Gyz];
    destruct (N.compare_spec (N_of_ascii x) (N_of_ascii z)) as [Exz|Lxz|Gxz];
    try lia; try reflexivity; try discriminate.
  apply IH.
Qed.

Lemma insert_sorted_comm x y s :
  insert_sorted x (insert_sorted y s) = insert_sorted y (insert_sorted x s).
Proof.
  induction s as [|z s IH]; cbn [insert_sorted].
  - destruct (String.leb x y) eqn:Exy, (String.leb y x) eqn:Eyx; try reflexivity.
    + now rewrite (String.leb_antisym _ _ Exy Eyx).
    + destruct (String.leb_total x y); congruence.
  - destruct (String.leb y z) eqn:Eyz, (String.leb x z) eqn:Exz; cbn [insert_sorted];
      rewrite ?Eyz, ?Exz.
    + destruct (String.leb x y) eqn:Exy, (String.leb y x) eqn:Eyx; try reflexivity.
      * now rewrite (String.leb_antisym _ _ Exy Eyx).
      * destruct (String.leb_total x y); congruence.
    + destruct (String.leb x y) eqn:Exy; [|reflexivity].
      rewrite (string_leb_trans _ _ _ Exy Eyz) in Exz. discriminate.
    + destruct (String.leb y x) eqn:Eyx; [|reflexivity].
      rewrite (string_leb_trans _ _ _ Eyx Exz) in Eyz. discriminate.
    + now rewrite IH.
Qed.

Lemma sorted_of_Permutation l l' : Permutation l l' -> sorted l = sorted l'.
Proof.
  induction 1 as [|x l l' _ IH|x y l|l l' l'' _ IH1 _ IH2]; cbn [sorted fold_right].
  - reflexivity.
  - fold (sorted l) (sorted l'). now rewrite IH.
  - apply insert_sorted_comm.
  - congruence.
Qed.

(** ** What [is_straight] accepts *)

Lemma fold_left_max_spec t : forall x,
  (fold_left Z.max t x = x \/ In (fold_left Z.max t x) t) /\ x <= fold_left Z.max t x /\
  (forall y, In y t -> y <= fold_left Z.max t x).
Proof.
  induction t as [|a t IH]; intro x; cbn [fold_left In].
  - split; [now left|]. split; [lia | intros y []].
  - destruct (IH (Z.max x a)) as (Hin & Hle & Hall).
    split; [|split].
    + destruct Hin as [E|Hin]; [|now right; right].
      rewrite E. destruct (Z.max_spec x a) as [[_ E']|[_ E']]; rewrite E'; auto.
    + lia.
    + intros y [<-|Hy]; [lia | auto].
Qed.

Lemma fold_left_min_spec t : forall x,
  (fold_left Z.min t x = x \/ In (fold_left Z.min t x) t) /\ fold_left Z.min t x <= x /\
  (forall y, In y t -> fold_left Z.min t x <= y).
Proof.
  induction t as [|a t IH]; intro x; cbn [fold_left In].
  - split; [now left|]. split; [lia | intros y []].
  - destruct (IH (Z.min x a)) as (Hin & Hle & Hall).
    split; [|split].
    + destruct Hin as [E|Hin]; [|now right; right].
      rewrite E. destruct (Z.min_spec x a) as [[_ E']|[_ E']]; rewrite E'; auto.
    + lia.
    + intros y [<-|Hy]; [lia | auto].
Qed.

Lemma py_max_spec l m :
  py_max l = ret m -> In m l /\ (forall y, In y l -> y <= m).
Proof.
  destruct l as [|x t]; cbn [py_max]; [discriminate|].
  intro E. injection E as <-.
  destruct (fold_left_max_spec t x) as (Hin & Hle & Hall).
  split; [destruct Hin as [->|Hin]; [now left | now right]|].
  intros y [<-|Hy]; auto.
Qed.

Lemma py_min_spec l m :
  py_min l = ret m -> In m l /\ (forall y, In y l -> m <= y).
Proof.
  destruct l as [|x t]; cbn [py_min]; [discriminate|].
  intro E. injection E as <-.
  destruct (fold_left_min_spec t x) as (Hin & Hle & Hall).
  split; [destruct Hin as [->|Hin]; [now left | now right]|].
  intros y [<-|Hy]; auto.
Qed.

Lemma mapM_Forall2 {A B} (f : A -> result B) xs : forall ys,
  mapM f xs = ret ys -> Forall2 (fun x y => f x = ret y) xs ys.
Proof.
  induction xs as [|x xs IH]; intros ys; cbn [mapM].
  - intro E. injection E as <-. constructor.
  - destruct (f x) as [e|y] eqn:Ex; cbn [bind ret]; [discriminate|].
    destruct (mapM f xs) as [e|ys']; cbn [bind ret]; [discriminate|].
    intro E. injection E as <-. constructor; auto.
Qed.

Lemma Forall2_In_l {A B} (R : A -> B -> Prop) xs ys x :
  Forall2 R xs ys -> In x xs -> exists y, In y ys /\ R x y.
Proof.
  induction 1 as [|a b xs ys Hab _ IH]; intros Hin; [destruct Hin|].
  destruct Hin as [<-|Hin].
  - exists b. split; [now left | exact Hab].
  - destruct (IH Hin) as (y & Hy & HR). exists y. split; [now right | exact HR].
Qed.

Lemma Forall2_In_r {A B} (R : A -> B -> Prop) xs ys y :
  Forall2 R xs ys -> In y ys -> exists x, In x xs /\ R x y.
Proof.
  induction 1 as [|a b xs ys Hab _ IH]; intros Hin; [destruct Hin|].
  destruct Hin as [<-|Hin].
  - exists a. split; [now left | exact Hab].
  - destruct (IH Hin) as (x & Hx & HR). exists x. split; [now right | exact HR].
Qed.

Lemma index_nth_error xs r : forall i,
  index xs r = ret i -> 0 <= i /\ nth_error xs (Z.to_nat i) = Some r.
Proof.
  induction xs as [|y ys IH]; intro i; cbn [index]; [discriminate|].
  destruct (String.eqb_spec y r) as [->|Hne].
  - intro E. injection E as <-. split; [lia | reflexivity].
  - destruct (index ys r) as [e|j]; cbn [bind ret]; [discriminate|].
    intro E. injection E as <-. destruct (IH j eq_refl) as [Hj Hn].
    split; [lia|].
    replace (Z.to_nat (j + 1)) with (S (Z.to_nat j)) by lia. exact Hn.
Qed.

Lemma nth_error_index xs :
  NoDup xs -> forall n r, nth_error xs n = Some r -> index xs r = ret (Z.of_nat n).
Proof.
  induction 1 as [|y ys Hnotin _ IH]; intros [|n] r Hn; cbn in Hn; try discriminate.
  - injection Hn as ->. cbn [index]. now rewrite String.eqb_refl.
  - cbn [index].
    destruct (String.eqb_spec y r) as [->|Hne].
    + exfalso. apply Hnotin. eapply nth_error_In; eauto.
    + rewrite (IH n r Hn). cbn [bind ret]. unfold ret. f_equal. lia.
Qed.

Lemma In_segment {A} (xs : list A) k w r :
  In r (firstn w (skipn k xs)) <->
  exists n, (k <= n < k + w)%nat /\ nth_error xs n = Some r.
Proof.
  split.
  - intro H. apply In_nth_error in H. destruct H as [m Hm].
    rewrite nth_error_firstn in Hm.
    destruct (Nat.ltb_spec m w); [|discriminate].
    rewrite nth_error_skipn in Hm.
    exists (k + m)%nat. split; [lia | exact Hm].
  - intros (n & Hn & E).
    apply (nth_error_In _ (n - k)).
    rewrite nth_error_firstn.
    destruct (Nat.ltb_spec (n - k) w); [|lia].
    rewrite nth_error_skipn. replace (k + (n - k))%nat with n by lia. exact E.
Qed.

Lemma RANKS_NoDup : NoDup RANKS.
Proof.
  apply (NoDup_count_occ' string_dec). intros r H. cbn in H.
  repeat (destruct H as [<-|H]; [reflexivity|]). contradiction.
Qed.

Lemma segment_NoDup k w : NoDup (firstn w (skipn k RANKS)).
Proof.
  pose proof RANKS_NoDup as H.
  rewrite <- (firstn_skipn k RANKS) in H. apply NoDup_app_remove_l in H.
  rewrite <- (firstn_skipn w (skipn k RANKS)) in H. now apply NoDup_app_remove_r in H.
Qed.

Lemma segment_length k : (k + 5 <= 13)%nat -> List.length (firstn 5 (skipn k RANKS)) = 5%nat.
Proof.
  intro H. rewrite length_firstn, length_skipn.
  change (List.length RANKS) with 13%nat. lia.
Qed.

(** Without an ace, a five-card straight is five consecutive positions. *)
Lemma straight_no_ace_consecutive cards :
  PokerHand.is_straight cards = ret true ->
  ~ In "A" (PokerHand.ranks cards) -> List.length cards = 5%nat ->
  consecutive_ranks cards.
Proof.
  intros Hs HA Hlen.
  assert (Hnd : NoDup (PokerHand.ranks cards)) by now apply straight_five_NoDup.
  revert Hs. unfold PokerHand.is_straight.
  destruct (str_in "A" (PokerHand.ranks cards)) eqn:EA;
    [apply str_in_In in EA; contradiction|].
  destruct (mapM (index RANKS) (PokerHand.ranks cards)) as [e|idx] eqn:EM; cbn [bind ret];
    [discriminate|].
  destruct (py_max idx) as [e|hi] eqn:Ehi; cbn [bind ret]; [discriminate|].
  destruct (py_min idx) as [e|lo] eqn:Elo; cbn [bind ret]; [discriminate|].
  intro H. injection H as H. apply andb_true_iff in H. destruct H as [_ H4].
  apply Z.eqb_eq in H4.
  apply mapM_Forall2 in EM.
  destruct (py_max_spec _ _ Ehi) as [Hhi_in Hhi].
  destruct (py_min_spec _ _ Elo) as [Hlo_in Hlo].
  assert (Hrange : forall i, In i idx -> 0 <= i < 13).
  { intros i Hi. destruct (Forall2_In_r _ _ _ _ EM Hi) as (r & _ & Hr).
    apply index_range in Hr. exact Hr. }
  pose proof (Hrange _ Hhi_in). pose proof (Hrange _ Hlo_in).
  exists (Z.to_nat lo). split; [lia|].
  apply NoDup_Permutation_bis; [exact Hnd | |].
  - rewrite segment_length by lia. unfold PokerHand.ranks. rewrite length_map. lia.
  - intros r Hr.
    destruct (Forall2_In_l _ _ _ _ EM Hr) as (i & Hi & Hri).
    apply In_segment. exists (Z.to_nat i).
    pose proof (Hhi _ Hi). pose proof (Hlo _ Hi).
    split; [lia|]. apply index_nth_error in Hri. tauto.
Qed.

(** Five consecutive positions without the ace are accepted. *)
Lemma consecutive_no_ace_straight cards :
  consecutive_ranks cards -> ~ In "A" (PokerHand.ranks cards) ->
  PokerHand.is_straight cards = ret true.
Proof.
  intros (k & Hk & HP) HA.
  assert (Hseg : forall r, In r (PokerHand.ranks cards) <->
            exists n, (k <= n < k + 5)%nat /\ nth_error RANKS n = Some r).
  { intro r. rewrite <- In_segment. split; apply Permutation_in;
      [exact HP | apply Permutation_sym, HP]. }
  assert (Hl : List.length (PokerHand.ranks cards) = 5%nat).
  { rewrite (Permutation_length HP). now apply segment_length. }
  assert (Hnd : NoDup (PokerHand.ranks cards)).
  { apply (Permutation_NoDup (Permutation_sym HP)), segment_NoDup. }
  unfold PokerHand.is_straight.
  destruct (str_in "A" (PokerHand.ranks cards)) eqn:EA;
    [apply str_in_In in EA; contradiction|].
  destruct (mapM_index_defined (PokerHand.ranks cards)) as (idx & EM & Hli).
  { apply Forall_forall. intros r Hr. apply Hseg in Hr.
    destruct Hr as (n & _ & Hn). eapply nth_error_In; eauto. }
  rewrite EM. cbn [bind ret]. apply mapM_Forall2 in EM.
  assert (Hidx : forall i, In i idx <-> Z.of_nat k <= i < Z.of_nat k + 5).
  { intro i. split.
    - intro Hi. destruct (Forall2_In_r _ _ _ _ EM Hi) as (r & Hr & Hri).
      apply Hseg in Hr. destruct Hr as (n & Hn & Hnth).
      rewrite (nth_error_index _ RANKS_NoDup _ _ Hnth) in Hri.
      injection Hri as <-. lia.
    - intro Hi.
      destruct (nth_error RANKS (Z.to_nat i)) as [r|] eqn:Hnth.
      2:{ apply nth_error_None in Hnth. change (List.length RANKS) with 13%nat in Hnth. lia. }
      assert (Hr : In r (PokerHand.ranks cards)).
      { apply Hseg. exists (Z.to_nat i). split; [lia | exact Hnth]. }
      destruct (Forall2_In_l _ _ _ _ EM Hr) as (j & Hj & Hrj).
      rewrite (nth_error_index _ RANKS_NoDup _ _ Hnth) in Hrj.
      injection Hrj as <-. now rewrite Z2Nat.id in Hj by lia. }
  destruct idx as [|i0 idx']; [cbn in Hli; lia|].
  destruct (py_max (i0 :: idx')) as [e|hi] eqn:Ehi; [discriminate|].
  destruct (py_min (i0 :: idx')) as [e|lo] eqn:Elo; [discriminate|].
  cbn [bind ret].
  destruct (py_max_spec _ _ Ehi) as [Hhi_in Hhi].
  destruct (py_min_spec _ _ Elo) as [Hlo_in Hlo].
  assert (hi = Z.of_nat k + 4).
  { apply Hidx in Hhi_in.
    assert (In (Z.of_nat k + 4) (i0 :: idx')) as Htop by (apply Hidx; lia).
    apply Hhi in Htop. lia. }
  assert (lo = Z.of_nat k).
  { apply Hidx in Hlo_in.
    assert (In (Z.of_nat k) (i0 :: idx')) as Hbot by (apply Hidx; lia).
    apply Hlo in Hbot. lia. }
  subst hi lo.
  unfold PokerHand._all_unique_ranks, set_of, len.
  rewrite (nodup_fixed_point string_dec Hnd), Hl.
  replace (Z.of_nat k + 4 - Z.of_nat k) with 4 by lia. reflexivity.
Qed.

(** With an ace, exactly the wheel is accepted. *)
Lemma straight_with_ace_iff_wheel cards :
  PokerHand.is_straight cards = ret true /\ In "A" (PokerHand.ranks cards) <->
  wheel_ranks cards.
Proof.
  unfold wheel_ranks. split.
  - intros [Hs HA].
    destruct (is_straight_cases cards Hs) as [[_ E]|[HnA _]]; [|contradiction].
    rewrite <- (sorted_Permutation (PokerHand.ranks cards)), E.
    apply Permutation_sym.
    apply (Permutation_cons_append ["2"; "3"; "4"; "5"] "A").
  - intro HP.
    assert (HA : In "A" (PokerHand.ranks cards)).
    { apply (Permutation_in _ (Permutation_sym HP)). now left. }
    split; [|exact HA].
    unfold PokerHand.is_straight.
    rewrite (proj2 (str_in_In _ _) HA), (sorted_of_Permutation _ _ HP).
    reflexivity.
Qed.

(** On five cards [is_straight] accepts the wheel and the runs of five
    consecutive ranks that hold no ace, and nothing else. *)
Lemma is_straight_characterisation cards :
  List.length cards = 5%nat ->
  (PokerHand.is_straight cards = ret true <->
   wheel_ranks cards \/
   (consecutive_ranks cards /\ ~ In "A" (PokerHand.ranks cards))).
Proof.
  intro Hlen. split.
  - intro Hs.
    destruct (is_straight_cases cards Hs) as [[HA _]|[HA _]].
    + left. apply straight_with_ace_iff_wheel. auto.
    + right. split; [now apply straight_no_ace_consecutive | exact HA].
  - intros [Hw|[Hc HA]].
    + now apply straight_with_ace_iff_wheel.
    + now apply consecutive_no_ace_straight.
Qed.

(** ** Two pair *)

(** C4.  The hand 2,2,2,5,7 holds no rank exactly twice, yet
    [is_two_pair] answers true: the count 1 occurs twice among the rank
    counts 3, 1, 1. *)
Theorem three_kind_reported_two_pair :
  let hand := [C "2" "H"; C "2" "D"; C "2" "C"; C "5" "H"; C "7" "D"] in
  PokerHand.is_two_pair hand = true /\
  (forall r, rank_count r hand <> 2%nat) /\
  ~ two_pair_spec hand.
Proof.
  intro hand.
  assert (Hno : forall r, rank_count r hand <> 2%nat).
  { intro r. unfold rank_count, hand. cbn [PokerHand.ranks map rank C count_occ].
    repeat destruct (string_dec _ r); try discriminate; congruence. }
  split; [reflexivity|]. split; [exact Hno|].
  intros (r1 & r2 & _ & H1 & _). exact (Hno r1 H1).
Qed.

(** ** What [is_two_pair] accepts *)

Section CounterItems.
Context {K : Type}.
Variable eqb : K -> K -> bool.
Hypothesis eqb_spec : forall a b, reflect (a = b) (eqb a b).
Variable dec : forall a b : K, {a = b} + {a <> b}.

Lemma Counter_keys xs :
  NoDup (map fst (Counter eqb xs)) /\
  (forall k, In k (map fst (Counter eqb xs)) <-> In k xs).
Proof.
  unfold Counter.
  destruct (counter_fold eqb eqb_spec dec xs []) as (Hnd & Hkeys & _).
  split; [apply Hnd; constructor|].
  intro k. rewrite Hkeys. cbn. tauto.
Qed.

(** The values of [Counter(xs)] are the multiplicities of its keys, key
    by key. *)
Lemma Counter_values_map xs :
  values (Counter eqb xs) =
  map (fun k => Z.of_nat (count_occ dec xs k)) (map fst (Counter eqb xs)).
Proof.
  unfold values. rewrite map_map. apply map_ext_in.
  intros [k n] Hin. cbn [fst snd].
  destruct (Counter_keys xs) as [Hnd _].
  rewrite <- (counter_get_of_item eqb eqb_spec _ k n Hnd Hin).
  unfold Counter.
  destruct (counter_fold eqb eqb_spec dec xs []) as (_ & _ & Hget).
  rewrite Hget. reflexivity.
Qed.

End CounterItems.

Lemma count_occ_map_filter {A} (f : A -> Z) (ks : list A) v :
  count_occ Z.eq_dec (map f ks) v = List.length (filter (fun k => f k =? v) ks).
Proof.
  induction ks as [|k ks IH]; cbn [map count_occ filter]; [reflexivity|].
  destruct (Z.eq_dec (f k) v) as [E|E].
  - rewrite (proj2 (Z.eqb_eq _ _) E). cbn [List.length]. now rewrite IH.
  - rewrite (proj2 (Z.eqb_neq _ _) E). exact IH.
Qed.

(** In a list without repetition, exactly two elements are mapped to [v]. *)
Lemma count_occ_map_two {A} (f : A -> Z) (ks : list A) v :
  NoDup ks ->
  (count_occ Z.eq_dec (map f ks) v = 2%nat <->
   exists k1 k2, k1 <> k2 /\ In k1 ks /\ In k2 ks /\ f k1 = v /\ f k2 = v /\
     forall k, In k ks -> f k = v -> k = k1 \/ k = k2).
Proof.
  intro Hnd. rewrite count_occ_map_filter.
  pose proof (NoDup_filter (fun k => f k =? v) Hnd) as Hndf.
  assert (Hin : forall k, In k (filter (fun k => f k =? v) ks) <-> In k ks /\ f k = v).
  { intro k. rewrite filter_In, Z.eqb_eq. tauto. }
  split.
  - intro Hl.
    destruct (filter (fun k => f k =? v) ks) as [|k1 [|k2 [|k3 l]]]; try discriminate.
    exists k1, k2.
    inversion Hndf as [|? ? Hnotin _]; subst.
    destruct (proj1 (Hin k1) (or_introl eq_refl)) as [H1 E1].
    destruct (proj1 (Hin k2) (or_intror (or_introl eq_refl))) as [H2 E2].
    split; [intros ->; apply Hnotin; now left|].
    repeat (split; [assumption|]).
    intros k Hk Ek. destruct (proj2 (Hin k) (conj Hk Ek)) as [<-|[<-|[]]]; auto.
  - intros (k1 & k2 & Hne & H1 & H2 & E1 & E2 & Hall).
    assert (HP : Permutation (filter (fun k => f k =? v) ks) [k1; k2]).
    { apply NoDup_Permutation; [exact Hndf | |].
      - constructor; [intros [E|[]]; congruence | constructor; [intros [] | constructor]].
      - intro k. rewrite Hin. cbn. split.
        + intros [Hk Ek]. destruct (Hall k Hk Ek); auto.
        + intros [<-|[<-|[]]]; auto. }
    apply Permutation_length in HP. exact HP.
Qed.

(** [is_two_pair] holds exactly when some multiplicity is shared by
    exactly two of the ranks in the hand. *)
Lemma is_two_pair_meaning cards :
  PokerHand.is_two_pair cards = true <->
  exists r1 r2, r1 <> r2 /\
    In r1 (PokerHand.ranks cards) /\ In r2 (PokerHand.ranks cards) /\
    rank_count r1 cards = rank_count r2 cards /\
    forall r, In r (PokerHand.ranks cards) ->
      rank_count r cards = rank_count r1 cards -> r = r1 \/ r = r2.
Proof.
  unfold PokerHand.is_two_pair.
  rewrite int_in_In, (Counter_values Z.eqb Z.eqb_spec Z.eq_dec).
  rewrite (Counter_values_map String.eqb String.eqb_spec string_dec).
  destruct (Counter_keys String.eqb String.eqb_spec string_dec (PokerHand.ranks cards))
    as [Hnd Hkeys].
  set (ks := map fst (Counter String.eqb (PokerHand.ranks cards))) in *.
  set (f := fun k => Z.of_nat (count_occ string_dec (PokerHand.ranks cards) k)).
  unfold rank_count.
  split.
  - intros (v & _ & Hv).
    assert (H2 : count_occ Z.eq_dec (map f ks) v = 2%nat) by lia.
    apply (count_occ_map_two f ks v Hnd) in H2.
    destruct H2 as (k1 & k2 & Hne & H1 & H2 & E1 & E2 & Hall).
    exists k1, k2. split; [exact Hne|].
    split; [now apply Hkeys|]. split; [now apply Hkeys|].
    unfold f in *. split; [lia|].
    intros r Hr Er. apply Hall; [now apply Hkeys | lia].
  - intros (r1 & r2 & Hne & H1 & H2 & E & Hall).
    exists (f r1).
    assert (Hc : count_occ Z.eq_dec (map f ks) (f r1) = 2%nat).
    { apply (count_occ_map_two f ks (f r1) Hnd).
      exists r1, r2. split; [exact Hne|].
      split; [now apply Hkeys|]. split; [now apply Hkeys|].
      unfold f in *. split; [reflexivity|]. split; [lia|].
      intros k Hk Ek. apply Hall; [now apply Hkeys | lia]. }
    split; [|lia].
    apply in_map. now apply Hkeys.
Qed.

(** A hand with exactly two ranks held twice is accepted; the converse
    fails, see [three_kind_reported_two_pair]. *)
Lemma two_pair_spec_accepted cards :
  two_pair_spec cards -> PokerHand.is_two_pair cards = true.
Proof.
  intros (r1 & r2 & Hne & H1 & H2 & Hall).
  apply is_two_pair_meaning. exists r1, r2.
  split; [exact Hne|].
  split; [apply (count_occ_In string_dec); unfold rank_count in H1; lia|].
  split; [apply (count_occ_In string_dec); unfold rank_count in H2; lia|].
  split; [lia|].
  intros r _ Er. apply Hall. lia.
Qed.

(** ** The sample hands of the specification *)

Example score_K_Q : BlackJackHand.score [C "K" "H"; C "Q" "D"] = ret 20.
Proof. reflexivity. Qed.

Example rank_straight_flush :
  classified_as [C "2" "H"; C "3" "H"; C "4" "H"; C "5" "H"; C "6" "H"] "straight_flush".
Proof. exists 2. split; reflexivity. Qed.

Example rank_royal_flush :
  classified_as [C "10" "H"; C "J" "H"; C "Q" "H"; C "K" "H"; C "A" "H"] "royal_flush".
Proof. exists 0. split; reflexivity. Qed.

Example rank_wheel :
  classified_as [C "A" "H"; C "2" "H"; C "3" "D"; C "4" "C"; C "5" "S"] "straight".
Proof. exists 5. split; reflexivity. Qed.

Example rank_full_house :
  classified_as [C "2" "H"; C "2" "D"; C "2" "C"; C "5" "H"; C "5" "D"] "full_house".
Proof. exists 3. split; reflexivity. Qed.

Example rank_high_card :
  classified_as [C "2" "H"; C "3" "D"; C "5" "C"; C "7" "S"; C "9" "H"] "high_card".
Proof. exists 9. split; reflexivity. Qed.

Example rank_holdem_pair_of_aces :
  HoldEmHand.hand_rank [C "A" "H"; C "A" "S"]
    [C "2" "H"; C "3" "H"; C "4" "H"; C "5" "H"; C "K" "D"] = ret (Int 8).
Proof. reflexivity. Qed.

(* ================================================================== *)
(** * Further properties of the code *)
(* ================================================================== *)

(** ** Deck: dealing and shuffling *)

Lemma deal_ok (d : Deck) (n : Z) :
  0 <= _idx d -> 0 <= n -> n < cards_remaining d ->
  deal d n =
  ret (firstn (Z.to_nat n) (skipn (Z.to_nat (_idx d)) (deck d)),
       {| deck := deck d; _idx := _idx d + n |}).
Proof.
  intros Hi Hn Hlt. unfold deal, islice.
  destruct (Z.gtb_spec (cards_remaining d) n); [|lia].
  destruct (Z.ltb_spec (_idx d) 0); [lia|].
  destruct (Z.ltb_spec (_idx d + n) 0); [lia|].
  cbn [orb bind ret].
  replace (Z.to_nat (_idx d + n) - Z.to_nat (_idx d))%nat with (Z.to_nat n) by lia.
  reflexivity.
Qed.

(** X1.  A request of [n >= 0] cards, strictly fewer than remain, is served
    with the [n] cards that follow the cursor, in deck order; the cursor
    moves by [n] and nothing else changes. *)
Theorem deal_serves_from_cursor (d : Deck) (n : Z) :
  0 <= _idx d -> 0 <= n -> n < cards_remaining d ->
  exists dealt d',
    deal d n = ret (dealt, d') /\
    dealt = firstn (Z.to_nat n) (skipn (Z.to_nat (_idx d)) (deck d)) /\
    len dealt = n /\
    deck d' = deck d /\ _idx d' = _idx d + n /\
    cards_remaining d' = cards_remaining d - n.
Proof.
  intros Hi Hn Hlt. do 2 eexists. split; [apply deal_ok; assumption|].
  unfold cards_remaining, len in *. cbn [deck _idx].
  split; [reflexivity|]. split; [|split; [reflexivity|split; [reflexivity|lia]]].
  rewrite length_firstn, length_skipn. lia.
Qed.

Lemma deal_serves_from_cursor_witness :
  exists dealt d',
    deal (fst (Deck_init 1 tape0)) 3 = ret (dealt, d') /\
    dealt = firstn (Z.to_nat 3)
              (skipn (Z.to_nat (_idx (fst (Deck_init 1 tape0))))
                     (deck (fst (Deck_init 1 tape0)))) /\
    len dealt = 3 /\
    deck d' = deck (fst (Deck_init 1 tape0)) /\
    _idx d' = _idx (fst (Deck_init 1 tape0)) + 3 /\
    cards_remaining d' = cards_remaining (fst (Deck_init 1 tape0)) - 3.
Proof.
  apply (deal_serves_from_cursor (fst (Deck_init 1 tape0)) 3).
  - rewrite Deck_init_idx. lia.
  - lia.
  - rewrite Deck_init_cards_remaining; lia.
Defined.

(** X2.  Whatever the request, a deal that returns leaves the deck list alone,
    a cursor inside the deck and at least one card undealt: no sequence
    of deals ever hands out the last card. *)
Theorem deal_never_exhausts (d d' : Deck) (n : Z) (dealt : list Card) :
  deal d n = ret (dealt, d') ->
  deck d' = deck d /\ _idx d' = _idx d + n /\
  0 <= _idx d /\ 0 <= _idx d' /\ 1 <= cards_remaining d'.
Proof.
  unfold deal, islice.
  destruct (Z.gtb_spec (cards_remaining d) n); [|discriminate].
  destruct (Z.ltb_spec (_idx d) 0); [discriminate|].
  destruct (Z.ltb_spec (_idx d + n) 0); [discriminate|].
  cbn [orb bind ret]. intro E. injection E as _ <-.
  unfold cards_remaining in *. cbn [deck _idx]. repeat split; lia.
Qed.

Lemma deal_never_exhausts_witness :
  let d := {| deck := one_deck; _idx := 0 |} in
  let d' := {| deck := one_deck; _idx := 51 |} in
  deck d' = deck d /\ _idx d' = _idx d + 51 /\
  0 <= _idx d /\ 0 <= _idx d' /\ 1 <= cards_remaining d'.
Proof.
  apply (deal_never_exhausts {| deck := one_deck; _idx := 0 |}
           {| deck := one_deck; _idx := 51 |} 51
           (firstn 51 one_deck)).
  reflexivity.
Defined.

Lemma firstn_plus {A} (l : list A) n m :
  firstn (n + m) l = (firstn n l ++ firstn m (skipn n l))%list.
Proof.
  revert l; induction n as [|n IH]; intros [|x l]; cbn [firstn skipn Nat.add app];
    try reflexivity.
  - now rewrite firstn_nil.
  - now rewrite IH.
Qed.

(** X3.  Two deals in a row hand out what one deal of the sum would: the
    second continues where the first stopped. *)
Theorem deal_twice_is_deal_sum (d : Deck) (n m : Z) :
  0 <= _idx d -> 0 <= n -> 0 <= m -> n + m < cards_remaining d ->
  exists c1 d1 c2 d2,
    deal d n = ret (c1, d1) /\ deal d1 m = ret (c2, d2) /\
    deal d (n + m) = ret ((c1 ++ c2)%list, d2).
Proof.
  intros Hi Hn Hm Hlt.
  do 4 eexists.
  split; [apply deal_ok; lia|].
  split; [apply deal_ok; unfold cards_remaining in *; cbn [deck _idx]; lia|].
  rewrite deal_ok by lia. cbn [deck _idx].
  rewrite Z2Nat.inj_add, firstn_plus, skipn_skipn by lia.
  rewrite Z2Nat.inj_add by lia.
  replace (Z.to_nat n + Z.to_nat (_idx d))%nat
    with (Z.to_nat (_idx d) + Z.to_nat n)%nat by lia.
  rewrite Z.add_assoc. reflexivity.
Qed.

Lemma deal_twice_is_deal_sum_witness :
  exists c1 d1 c2 d2,
    deal {| deck := one_deck; _idx := 0 |} 2 = ret (c1, d1) /\
    deal d1 3 = ret (c2, d2) /\
    deal {| deck := one_deck; _idx := 0 |} (2 + 3) = ret ((c1 ++ c2)%list, d2).
Proof.
  apply (deal_twice_is_deal_sum {| deck := one_deck; _idx := 0 |} 2 3);
    cbn; lia.
Defined.

(** X4.  A negative request is not refused: after a deal of [k] cards, a deal
    of [-k] returns no card and puts the deck back in the state it had
    before, so the next deal hands out the same [k] cards again. *)
Theorem deal_negative_rewinds (d : Deck) (k : Z) :
  0 <= _idx d -> 0 < k -> k < cards_remaining d ->
  exists cs d1,
    deal d k = ret (cs, d1) /\
    deal d1 (- k) = ret ([], d).
Proof.
  intros Hi Hk Hlt. do 2 eexists.
  split; [apply deal_ok; lia|].
  unfold deal, islice, cards_remaining in *. cbn [deck _idx].
  destruct (Z.gtb_spec (Z.of_nat (List.length (deck d)) - (_idx d + k)) (- k)); [|lia].
  destruct (Z.ltb_spec (_idx d + k) 0); [lia|].
  destruct (Z.ltb_spec (_idx d + k + - k) 0); [lia|].
  cbn [orb bind ret].
  replace (Z.to_nat (_idx d + k + - k) - Z.to_nat (_idx d + k))%nat with 0%nat by lia.
  replace (_idx d + k + - k) with (_idx d) by lia.
  destruct d; reflexivity.
Qed.

Lemma deal_negative_rewinds_witness :
  exists cs d1,
    deal {| deck := one_deck; _idx := 0 |} 5 = ret (cs, d1) /\
    deal d1 (- 5) = ret ([], {| deck := one_deck; _idx := 0 |}).
Proof.
  apply (deal_negative_rewinds {| deck := one_deck; _idx := 0 |} 5); cbn; lia.
Defined.

Lemma shuffle_loop_nil {A} i (g : Random) : fst (shuffle_loop i (@nil A) g) = [].
Proof.
  revert g; induction i as [|i IH]; intro g; cbn [shuffle_loop randbelow]; [reflexivity|].
  unfold swap. destruct (Nat.modulo (draws g (pos g)) (S (S i))); cbn; apply IH.
Qed.

(** X5.  A deck built from no deck at all ([num_decks <= 0]) is empty and
    refuses every request, the request for no card included. *)
Theorem empty_deck_never_deals (num_decks : Z) (g : Random) (n : Z) :
  num_decks <= 0 ->
  deck (fst (Deck_init num_decks g)) = [] /\
  deal (fst (Deck_init num_decks g)) n = raise ValueError.
Proof.
  intro H.
  assert (E : deck (fst (Deck_init num_decks g)) = []).
  { rewrite Deck_init_deck, create_cards_unfold.
    replace (Z.to_nat num_decks) with 0%nat by lia. reflexivity. }
  split; [exact E|].
  unfold deal, cards_remaining, islice. rewrite E, Deck_init_idx. cbn [List.length].
  destruct (Z.gtb_spec (Z.of_nat 0 - 0) n); [|reflexivity].
  destruct (Z.ltb_spec (0 + n) 0); [reflexivity | lia].
Qed.

Lemma empty_deck_never_deals_witness :
  deck (fst (Deck_init 0 tape0)) = [] /\
  deal (fst (Deck_init 0 tape0)) 0 = raise ValueError.
Proof. apply (empty_deck_never_deals 0 tape0 0). lia. Defined.

(** X6.  [Deck.shuffle] reorders the whole list, dealt cards included, and
    leaves the cursor where it is: the number of cards and of undealt
    cards does not change. *)
Theorem shuffle_keeps_cards_and_cursor (d : Deck) (g : Random) :
  Permutation (deck (fst (shuffle d g))) (deck d) /\
  _idx (fst (shuffle d g)) = _idx d /\
  Deck_len (fst (shuffle d g)) = Deck_len d /\
  cards_remaining (fst (shuffle d g)) = cards_remaining d.
Proof.
  assert (E : deck (fst (shuffle d g)) = fst (random_shuffle (deck d) g) /\
              _idx (fst (shuffle d g)) = _idx d).
  { unfold shuffle. destruct (random_shuffle (deck d) g). split; reflexivity. }
  destruct E as [Ed Ei].
  assert (HP : Permutation (deck (fst (shuffle d g))) (deck d)).
  { rewrite Ed. apply (random_shuffle_Permutation Card_eq_dec). }
  split; [exact HP|]. split; [exact Ei|].
  unfold Deck_len, cards_remaining. rewrite Ei, (Permutation_length HP).
  split; reflexivity.
Qed.

Lemma fresh_single_deck_NoDup g : NoDup (deck (fst (Deck_init 1 g))).
Proof.
  rewrite Deck_init_deck.
  apply (Permutation_NoDup (l := one_deck)); [|apply one_deck_NoDup].
  apply Permutation_sym.
  replace one_deck with (_create_cards 1).
  - apply (random_shuffle_Permutation Card_eq_dec).
  - rewrite create_cards_unfold. cbn [Z.to_nat Pos.to_nat Pos.iter_op repeat List.concat].
    apply app_nil_r.
Qed.

(** X7.  From a fresh single deck, two deals of non-negative size never hand
    out the same card twice. *)
Theorem single_deck_no_card_twice (g : Random) (n m : Z) :
  0 <= n -> 0 <= m -> n + m < 52 ->
  exists c1 d1 c2 d2,
    deal (fst (Deck_init 1 g)) n = ret (c1, d1) /\
    deal d1 m = ret (c2, d2) /\
    NoDup (c1 ++ c2)%list.
Proof.
  intros Hn Hm Hlt.
  set (d := fst (Deck_init 1 g)).
  assert (Hi : _idx d = 0) by apply Deck_init_idx.
  assert (Hr : cards_remaining d = 52) by (apply (Deck_init_cards_remaining 1 g); lia).
  do 4 eexists.
  split; [apply deal_ok; lia|].
  split; [apply deal_ok; unfold cards_remaining in *; cbn [deck _idx]; lia|].
  cbn [deck _idx]. rewrite Hi.
  replace (Z.to_nat (0 + n)) with (Z.to_nat n + 0)%nat by lia.
  rewrite <- skipn_skipn. cbn [Z.to_nat skipn].
  rewrite <- firstn_plus.
  pose proof (fresh_single_deck_NoDup g) as Hnd. fold d in Hnd.
  rewrite <- (firstn_skipn (Z.to_nat n + Z.to_nat m) (deck d)) in Hnd.
  now apply NoDup_app_remove_r in Hnd.
Qed.

Lemma single_deck_no_card_twice_witness :
  exists c1 d1 c2 d2,
    deal (fst (Deck_init 1 tape0)) 2 = ret (c1, d1) /\
    deal d1 5 = ret (c2, d2) /\
    NoDup (c1 ++ c2)%list.
Proof. apply (single_deck_no_card_twice tape0 2 5); lia. Defined.

(** ** BlackJackHand: hits, aces and unknown ranks *)

Lemma score_from_app l1 : forall l2 s,
  BlackJackHand.score_from (l1 ++ l2) s =
  (s' <- BlackJackHand.score_from l1 s ;; BlackJackHand.score_from l2 s').
Proof.
  induction l1 as [|c l1 IH]; intros l2 s; cbn [app BlackJackHand.score_from bind ret];
    [reflexivity|].
  destruct (if BlackJackHand.in_card "A" c
            then ret (BlackJackHand._handle_ace s)
            else dict_get BlackJackHand.CARD_VALUES (rank c)) as [e|v];
    cbn [bind ret]; [reflexivity | apply IH].
Qed.

Lemma spec_card_value_bounds s r :
  In r RANKS -> 1 <= spec_card_value s r <= 11.
Proof.
  intro H. cbn in H.
  repeat (destruct H as [<-|H];
          [try (vm_compute; split; discriminate);
           unfold spec_card_value; cbn [String.eqb Ascii.eqb Bool.eqb];
           destruct (10 <? s); lia|]).
  contradiction.
Qed.

Lemma spec_card_value_no_ace s r : r <> "A" -> spec_card_value s r = spec_card_value 0 r.
Proof.
  intro H. unfold spec_card_value. now rewrite (proj2 (String.eqb_neq _ _) H).
Qed.

(** X8.  A hit on a hand of deck cards raises the score by the value of the
    new card, between 1 and 11: an ace adds 1 when the hand already
    scores more than 10 and 11 otherwise, so an ace drawn on a score of
    at most 20 never takes the hand over 21. *)
Theorem score_after_hit (cards : list Card) (c : Card) :
  Forall valid_card cards -> valid_card c ->
  exists s v,
    BlackJackHand.score cards = ret s /\
    BlackJackHand.score (cards ++ [c]) = ret (s + v) /\
    1 <= v <= 11 /\
    (rank c = "A" -> v = if 10 <? s then 1 else 11) /\
    (rank c = "A" -> s <= 20 -> s + v <= 21) /\
    (rank c <> "A" -> v = spec_card_value 0 (rank c) /\ 2 <= v <= 10).
Proof.
  intros Hv Hc.
  exists (sequential_score cards), (spec_card_value (sequential_score cards) (rank c)).
  unfold BlackJackHand.score.
  rewrite score_from_app, (score_from_spec cards 0 Hv). cbn [bind ret].
  fold (sequential_score cards).
  split; [reflexivity|]. split.
  - rewrite (score_from_spec [c]) by (constructor; [exact Hc | constructor]).
    reflexivity.
  - split; [apply spec_card_value_bounds, Hc|]. split; [|split].
    + intros ->. reflexivity.
    + intros -> Hs. unfold spec_card_value. cbn [String.eqb Ascii.eqb Bool.eqb].
      destruct (Z.ltb_spec 10 (sequential_score cards)); lia.
    + intro Hne. rewrite (spec_card_value_no_ace _ _ Hne). split; [reflexivity|].
      destruct Hc as [Hr _]. cbn in Hr.
      repeat (destruct Hr as [E|Hr];
              [rewrite <- E in *; try congruence; vm_compute; split; discriminate|]).
      contradiction.
Qed.

Lemma score_after_hit_witness :
  exists s v,
    BlackJackHand.score [C "A" "H"; C "5" "D"] = ret s /\
    BlackJackHand.score ([C "A" "H"; C "5" "D"] ++ [C "A" "S"]) = ret (s + v) /\
    1 <= v <= 11 /\
    (rank (C "A" "S") = "A" -> v = if 10 <? s then 1 else 11) /\
    (rank (C "A" "S") = "A" -> s <= 20 -> s + v <= 21) /\
    (rank (C "A" "S") <> "A" -> v = spec_card_value 0 (rank (C "A" "S")) /\ 2 <= v <= 10).
Proof.
  apply (score_after_hit [C "A" "H"; C "5" "D"] (C "A" "S")).
  - valid_cards.
  - split; vm_compute; tauto.
Defined.

Lemma fold_plain cards : forall acc,
  (forall c, In c cards -> rank c <> "A") ->
  fold_left (fun so_far card => so_far + spec_card_value so_far (rank card)) cards acc =
  acc + plain_sum cards.
Proof.
  induction cards as [|c cards IH]; intros acc Hna; cbn [fold_left plain_sum fold_right].
  - lia.
  - rewrite IH by (intros x Hx; apply Hna; now right).
    rewrite (spec_card_value_no_ace acc) by (apply Hna; now left).
    fold (plain_sum cards). lia.
Qed.

Lemma plain_sum_Permutation cards cards' :
  Permutation cards cards' -> plain_sum cards = plain_sum cards'.
Proof.
  induction 1; cbn [plain_sum fold_right]; fold plain_sum in *; try lia.
  - unfold plain_sum in *. lia.
Qed.

(** X9.  Without an ace in it, a hand of deck cards scores the plain sum of
    its card values, in whatever order the cards come. *)
Theorem score_without_aces_order_free (cards cards' : list Card) :
  Forall valid_card cards -> (forall c, In c cards -> rank c <> "A") ->
  Permutation cards cards' ->
  BlackJackHand.score cards = ret (plain_sum cards) /\
  BlackJackHand.score cards' = ret (plain_sum cards).
Proof.
  intros Hv Hna HP.
  assert (Hv' : Forall valid_card cards') by (eapply Permutation_Forall; eauto).
  assert (Hna' : forall c, In c cards' -> rank c <> "A").
  { intros c Hc. apply Hna. eapply Permutation_in; [apply Permutation_sym|]; eauto. }
  unfold BlackJackHand.score.
  rewrite (score_from_spec cards 0 Hv), (score_from_spec cards' 0 Hv').
  rewrite !fold_plain by assumption.
  rewrite (plain_sum_Permutation _ _ HP). split; reflexivity.
Qed.

Lemma score_without_aces_order_free_witness :
  BlackJackHand.score [C "K" "H"; C "7" "D"; C "2" "S"] =
    ret (plain_sum [C "K" "H"; C "7" "D"; C "2" "S"]) /\
  BlackJackHand.score [C "7" "D"; C "K" "H"; C "2" "S"] =
    ret (plain_sum [C "K" "H"; C "7" "D"; C "2" "S"]).
Proof.
  apply (score_without_aces_order_free
           [C "K" "H"; C "7" "D"; C "2" "S"] [C "7" "D"; C "K" "H"; C "2" "S"]).
  - valid_cards.
  - intros c Hc. cbn in Hc.
    repeat (destruct Hc as [<-|Hc]; [discriminate|]). contradiction.
  - apply perm_swap.
Defined.

(** X10.  The place of an ace matters.  Put first it counts 11 whatever
    follows; put last it counts 1 as soon as the other cards score more
    than 10.  So the same cards can score 10 points apart, and an ace
    dealt first can bust a hand that an ace dealt last would not. *)
Theorem ace_first_or_last (a : Card) (rest : list Card) :
  valid_card a -> rank a = "A" ->
  Forall valid_card rest -> (forall c, In c rest -> rank c <> "A") ->
  BlackJackHand.score (a :: rest) = ret (11 + plain_sum rest) /\
  BlackJackHand.score (rest ++ [a]) =
    ret (plain_sum rest + (if 10 <? plain_sum rest then 1 else 11)).
Proof.
  intros Ha Er Hv Hna. unfold BlackJackHand.score. split.
  - rewrite (score_from_spec (a :: rest) 0) by (constructor; assumption).
    cbn [fold_left]. rewrite fold_plain by assumption.
    unfold spec_card_value. rewrite Er. reflexivity.
  - rewrite score_from_app, (score_from_spec rest 0 Hv). cbn [bind ret].
    rewrite fold_plain by assumption.
    rewrite (score_from_spec [a]) by (constructor; [exact Ha | constructor]).
    cbn [fold_left]. unfold spec_card_value at 1. rewrite Er. reflexivity.
Qed.

Lemma ace_first_or_last_witness :
  BlackJackHand.score (C "A" "H" :: [C "K" "D"; C "K" "S"]) =
    ret (11 + plain_sum [C "K" "D"; C "K" "S"]) /\
  BlackJackHand.score ([C "K" "D"; C "K" "S"] ++ [C "A" "H"]) =
    ret (plain_sum [C "K" "D"; C "K" "S"] +
         (if 10 <? plain_sum [C "K" "D"; C "K" "S"] then 1 else 11)).
Proof.
  apply (ace_first_or_last (C "A" "H") [C "K" "D"; C "K" "S"]).
  - split; vm_compute; tauto.
  - reflexivity.
  - valid_cards.
  - intros c Hc. cbn in Hc.
    repeat (destruct Hc as [<-|Hc]; [discriminate|]). contradiction.
Defined.

Lemma dict_get_missing {V} (d : list (string * V)) k :
  ~ In k (map fst d) -> dict_get d k = raise KeyError.
Proof.
  induction d as [|[k' v] d IH]; cbn [dict_get map fst In]; intro H; [reflexivity|].
  destruct (String.eqb_spec k' k) as [E|E]; [tauto|]. apply IH. tauto.
Qed.

(** X11.  A card whose rank is not one of the 13 ranks makes [score] raise
    [KeyError], wherever it sits after deck cards, unless its suit is the
    string A, in which case the card is taken for an ace. *)
Theorem score_unknown_rank_raises (pre post : list Card) (c : Card) :
  Forall valid_card pre -> ~ In (rank c) RANKS ->
  (suit c <> "A" -> BlackJackHand.score (pre ++ c :: post) = raise KeyError) /\
  (suit c = "A" ->
   exists s, BlackJackHand.score pre = ret s /\
             BlackJackHand.score (pre ++ c :: post) =
               BlackJackHand.score_from post (s + (if 10 <? s then 1 else 11))).
Proof.
  intros Hv Hr.
  assert (HnA : rank c <> "A") by (intro E; apply Hr; rewrite E; cbn; tauto).
  unfold BlackJackHand.score.
  rewrite score_from_app, (score_from_spec pre 0 Hv). cbn [bind ret].
  fold (sequential_score pre).
  cbn [BlackJackHand.score_from]. unfold BlackJackHand.in_card.
  rewrite (proj2 (String.eqb_neq _ _) HnA). cbn [orb].
  split.
  - intro Hs. rewrite (proj2 (String.eqb_neq _ _) Hs).
    rewrite (dict_get_missing BlackJackHand.CARD_VALUES (rank c)) by exact Hr.
    reflexivity.
  - intros Hs. rewrite Hs. cbn [String.eqb Ascii.eqb Bool.eqb bind ret].
    exists (sequential_score pre). split; [reflexivity|].
    unfold BlackJackHand._handle_ace. rewrite Z.gtb_ltb. reflexivity.
Qed.

Lemma score_unknown_rank_raises_witness :
  (suit (C "1" "H") <> "A" ->
   BlackJackHand.score ([C "K" "H"] ++ C "1" "H" :: [C "2" "D"]) = raise KeyError) /\
  (suit (C "1" "H") = "A" ->
   exists s, BlackJackHand.score [C "K" "H"] = ret s /\
             BlackJackHand.score ([C "K" "H"] ++ C "1" "H" :: [C "2" "D"]) =
               BlackJackHand.score_from [C "2" "D"] (s + (if 10 <? s then 1 else 11))).
Proof.
  apply (score_unknown_rank_raises [C "K" "H"] [C "2" "D"] (C "1" "H")).
  - valid_cards.
  - cbn. intros H.
    repeat (destruct H as [H|H]; [discriminate|]). contradiction.
Defined.

(** X12.  On hands of deck cards the four comparisons never raise and follow
    the scores: [A < B] is [B > A] and the negation of [A >= B], [A <= B]
    is [B >= A] and the negation of [A > B]; a hand that went over 21 is
    still the greater one. *)
Theorem blackjack_comparisons_follow_score (A B : list Card) :
  Forall valid_card A -> Forall valid_card B ->
  exists a b,
    BlackJackHand.score A = ret a /\ BlackJackHand.score B = ret b /\
    BlackJackHand.lt A B = ret (a <? b) /\
    BlackJackHand.lt A B = BlackJackHand.gt B A /\
    BlackJackHand.le A B = BlackJackHand.ge B A /\
    BlackJackHand.ge A B = ret (negb (a <? b)) /\
    BlackJackHand.le A B = ret (negb (b <? a)).
Proof.
  intros HA HB.
  exists (sequential_score A), (sequential_score B).
  unfold BlackJackHand.lt, BlackJackHand.gt, BlackJackHand.le, BlackJackHand.ge,
    BlackJackHand.score.
  rewrite (score_from_spec A 0 HA), (score_from_spec B 0 HB). cbn [bind ret].
  fold (sequential_score A) (sequential_score B).
  repeat split; unfold ret; f_equal.
  - rewrite Z.gtb_ltb. reflexivity.
  - rewrite Z.geb_leb. reflexivity.
  - rewrite Z.geb_leb. apply Z.leb_antisym.
  - apply Z.leb_antisym.
Qed.

Lemma blackjack_comparisons_follow_score_witness :
  exists a b,
    BlackJackHand.score [C "A" "H"; C "K" "D"; C "K" "S"] = ret a /\
    BlackJackHand.score [C "A" "S"; C "K" "H"] = ret b /\
    BlackJackHand.lt [C "A" "H"; C "K" "D"; C "K" "S"] [C "A" "S"; C "K" "H"] = ret (a <? b) /\
    BlackJackHand.lt [C "A" "H"; C "K" "D"; C "K" "S"] [C "A" "S"; C "K" "H"] =
      BlackJackHand.gt [C "A" "S"; C "K" "H"] [C "A" "H"; C "K" "D"; C "K" "S"] /\
    BlackJackHand.le [C "A" "H"; C "K" "D"; C "K" "S"] [C "A" "S"; C "K" "H"] =
      BlackJackHand.ge [C "A" "S"; C "K" "H"] [C "A" "H"; C "K" "D"; C "K" "S"] /\
    BlackJackHand.ge [C "A" "H"; C "K" "D"; C "K" "S"] [C "A" "S"; C "K" "H"] =
      ret (negb (a <? b)) /\
    BlackJackHand.le [C "A" "H"; C "K" "D"; C "K" "S"] [C "A" "S"; C "K" "H"] =
      ret (negb (b <? a)).
Proof.
  apply (blackjack_comparisons_follow_score
           [C "A" "H"; C "K" "D"; C "K" "S"] [C "A" "S"; C "K" "H"]); valid_cards.
Defined.

(** ** PokerHand: what the predicates accept *)

Lemma multiplicity_iff cards n :
  (0 < n)%nat ->
  (int_in (Z.of_nat n) (values (Counter String.eqb (PokerHand.ranks cards))) = true <->
   exists r, rank_count r cards = n).
Proof.
  intro Hn. rewrite rank_multiplicity. split.
  - intros (r & _ & E). exists r. lia.
  - intros (r & E). exists r. split; [|lia].
    apply (count_occ_In string_dec). unfold rank_count in E. lia.
Qed.

(** X13.  [is_pair], [is_three_kind] and [is_four_kind] hold exactly when some
    rank is held exactly 2, 3 and 4 times, whatever else the hand holds
    and however many cards it has; [is_full_house] holds exactly when one
    rank is held 3 times and another 2 times. *)
Theorem of_a_kind_counts (cards : list Card) :
  (PokerHand.is_pair cards = true <-> exists r, rank_count r cards = 2%nat) /\
  (PokerHand.is_three_kind cards = true <-> exists r, rank_count r cards = 3%nat) /\
  (PokerHand.is_four_kind cards = true <-> exists r, rank_count r cards = 4%nat) /\
  (PokerHand.is_full_house cards = true <->
   exists r3 r2, rank_count r3 cards = 3%nat /\ rank_count r2 cards = 2%nat).
Proof.
  pose proof (multiplicity_iff cards 2 ltac:(lia)) as H2.
  pose proof (multiplicity_iff cards 3 ltac:(lia)) as H3.
  pose proof (multiplicity_iff cards 4 ltac:(lia)) as H4.
  split; [exact H2|]. split; [exact H3|]. split; [exact H4|].
  unfold PokerHand.is_full_house, PokerHand.is_pair, PokerHand.is_three_kind.
  rewrite andb_true_iff. change 2 with (Z.of_nat 2). change 3 with (Z.of_nat 3).
  rewrite H2, H3. split.
  - intros [(r2 & E2) (r3 & E3)]. exists r3, r2. auto.
  - intros (r3 & r2 & E3 & E2). split; [exists r2 | exists r3]; auto.
Qed.

Lemma nodup_singleton (l : list string) :
  List.length (nodup string_dec l) = 1%nat <->
  l <> [] /\ exists s, forall x, In x l -> x = s.
Proof.
  split.
  - intro H.
    destruct (nodup string_dec l) as [|s [|b t]] eqn:E; try discriminate.
    split.
    + intros ->. discriminate.
    + exists s. intros x Hx. apply (nodup_In string_dec) in Hx. rewrite E in Hx.
      destruct Hx as [<-|[]]. reflexivity.
  - intros (Hne & s & Hall).
    pose proof (NoDup_nodup string_dec l) as Hnd.
    destruct (nodup string_dec l) as [|a [|b t]] eqn:E.
    + destruct l as [|x l]; [congruence|].
      assert (Hx : In x (nodup string_dec (x :: l))) by (apply nodup_In; now left).
      rewrite E in Hx. destruct Hx.
    + reflexivity.
    + exfalso.
      assert (Ha : In a (nodup string_dec l)) by (rewrite E; now left).
      assert (Hb : In b (nodup string_dec l)) by (rewrite E; right; now left).
      apply nodup_In in Ha, Hb. apply Hall in Ha, Hb. subst a b.
      inversion Hnd as [|? ? Hnotin _]. apply Hnotin. now left.
Qed.

(** X14.  [is_flush] holds exactly for hands of five cards that all have one
    suit; a hand of any other size is never a flush. *)
Theorem is_flush_iff (cards : list Card) :
  PokerHand.is_flush cards = true <->
  List.length cards = 5%nat /\ exists s, all_of_suit s cards.
Proof.
  unfold PokerHand.is_flush, len, set_of, all_of_suit.
  rewrite andb_true_iff, !Z.eqb_eq.
  replace (Z.of_nat (List.length (nodup string_dec (PokerHand.suits cards))) = 1)
    with (Z.of_nat (List.length (nodup string_dec (PokerHand.suits cards))) = Z.of_nat 1)
    by reflexivity.
  rewrite Nat2Z.inj_iff, nodup_singleton.
  unfold PokerHand.suits. split.
  - intros [(_ & s & Hall) Hl]. split; [lia|].
    exists s. intros c Hc. apply Hall. now apply in_map.
  - intros [Hl (s & Hall)]. split; [|lia]. split.
    + destruct cards; [discriminate | discriminate].
    + exists s. intros x Hx. apply in_map_iff in Hx. destruct Hx as (c & <- & Hc). auto.
Qed.

Lemma sorted_royal_iff rs :
  sorted rs = ["10"; "A"; "J"; "K"; "Q"] <-> Permutation rs ["10"; "J"; "Q"; "K"; "A"].
Proof.
  split.
  - intro E. rewrite <- (sorted_Permutation rs), E.
    apply NoDup_Permutation.
    + apply (NoDup_count_occ' string_dec). intros x Hx. cbn in Hx.
      repeat (destruct Hx as [<-|Hx]; [reflexivity|]). contradiction.
    + apply (NoDup_count_occ' string_dec). intros x Hx. cbn in Hx.
      repeat (destruct Hx as [<-|Hx]; [reflexivity|]). contradiction.
    + intro x. cbn. tauto.
  - intro HP. rewrite (sorted_of_Permutation _ _ HP). reflexivity.
Qed.

(** X15.  [is_royal_flush] holds exactly for a flush whose ranks are 10, J, Q,
    K, A in some order. *)
Theorem is_royal_flush_iff (cards : list Card) :
  PokerHand.is_royal_flush cards = true <->
  PokerHand.is_flush cards = true /\
  Permutation (PokerHand.ranks cards) ["10"; "J"; "Q"; "K"; "A"].
Proof.
  unfold PokerHand.is_royal_flush.
  rewrite andb_true_iff, strs_eqb_eq, sorted_royal_iff. tauto.
Qed.

(** X16.  A royal flush is ranked 0, but it is neither a straight nor a
    straight flush for the predicates: [is_straight] and
    [is_straight_flush] answer false on it. *)
Theorem royal_flush_is_no_straight_flush (cards : list Card) :
  PokerHand.is_royal_flush cards = true ->
  PokerHand.hand_rank cards = ret 0 /\
  PokerHand.is_straight cards = ret false /\
  PokerHand.is_straight_flush cards = ret false.
Proof.
  intro H.
  assert (Hs : PokerHand.is_straight cards = ret false).
  { unfold PokerHand.is_royal_flush in H. apply andb_true_iff in H. destruct H as [E _].
    apply strs_eqb_eq in E. unfold PokerHand.is_straight.
    assert (HA : In "A" (PokerHand.ranks cards)).
    { apply (Permutation_in _ (sorted_Permutation _)). rewrite E. cbn. tauto. }
    rewrite (proj2 (str_in_In _ _) HA), E. reflexivity. }
  split; [|split; [exact Hs|]].
  - rewrite hand_rank_find_first. unfold categories. cbn [find_first].
    rewrite H. reflexivity.
  - unfold PokerHand.is_straight_flush, py_and. rewrite Hs. reflexivity.
Qed.

Lemma royal_flush_is_no_straight_flush_witness :
  PokerHand.hand_rank [C "10" "S"; C "J" "S"; C "Q" "S"; C "K" "S"; C "A" "S"] = ret 0 /\
  PokerHand.is_straight [C "10" "S"; C "J" "S"; C "Q" "S"; C "K" "S"; C "A" "S"]
    = ret false /\
  PokerHand.is_straight_flush [C "10" "S"; C "J" "S"; C "Q" "S"; C "K" "S"; C "A" "S"]
    = ret false.
Proof.
  apply (royal_flush_is_no_straight_flush
           [C "10" "S"; C "J" "S"; C "Q" "S"; C "K" "S"; C "A" "S"]).
  reflexivity.
Defined.

(** X17.  On five cards [is_straight] accepts the wheel A, 2, 3, 4, 5 and the
    runs of five consecutive ranks that hold no ace, and nothing else. *)
Theorem is_straight_on_five_cards (cards : list Card) :
  List.length cards = 5%nat ->
  (PokerHand.is_straight cards = ret true <->
   wheel_ranks cards \/
   (consecutive_ranks cards /\ ~ In "A" (PokerHand.ranks cards))).
Proof. apply is_straight_characterisation. Qed.

Lemma is_straight_on_five_cards_witness :
  PokerHand.is_straight [C "9" "H"; C "K" "D"; C "J" "C"; C "10" "S"; C "Q" "H"] = ret true <->
  wheel_ranks [C "9" "H"; C "K" "D"; C "J" "C"; C "10" "S"; C "Q" "H"] \/
  (consecutive_ranks [C "9" "H"; C "K" "D"; C "J" "C"; C "10" "S"; C "Q" "H"] /\
   ~ In "A" (PokerHand.ranks [C "9" "H"; C "K" "D"; C "J" "C"; C "10" "S"; C "Q" "H"])).
Proof.
  apply (is_straight_on_five_cards
           [C "9" "H"; C "K" "D"; C "J" "C"; C "10" "S"; C "Q" "H"]).
  reflexivity.
Defined.

(** X18.  [is_two_pair] holds exactly when two different ranks of the hand are
    held the same number of times and no third rank is held that number
    of times: two pairs qualify, and so do two single cards beside three
    of a kind, or any two cards of different ranks. *)
Theorem is_two_pair_shared_multiplicity (cards : list Card) :
  PokerHand.is_two_pair cards = true <->
  exists r1 r2, r1 <> r2 /\
    In r1 (PokerHand.ranks cards) /\ In r2 (PokerHand.ranks cards) /\
    rank_count r1 cards = rank_count r2 cards /\
    forall r, In r (PokerHand.ranks cards) ->
      rank_count r cards = rank_count r1 cards -> r = r1 \/ r = r2.
Proof. apply is_two_pair_meaning. Qed.

(** X19.  Five distinct cards of one deck always get a rank, between 0 and 9. *)
Theorem single_deck_hand_is_ranked (cards : list Card) :
  Forall valid_card cards -> NoDup cards -> List.length cards = 5%nat ->
  exists i, PokerHand.hand_rank cards = ret i /\ 0 <= i <= 9.
Proof.
  intros Hv Hnd Hl.
  destruct (hand_rank_defined_single_deck cards Hv Hnd Hl) as [i Hi].
  exists i. split; [exact Hi|]. apply hand_rank_range in Hi. lia.
Qed.

Lemma single_deck_hand_is_ranked_witness :
  exists i,
    PokerHand.hand_rank [C "2" "H"; C "2" "D"; C "9" "C"; C "K" "S"; C "K" "H"] = ret i /\
    0 <= i <= 9.
Proof.
  apply (single_deck_hand_is_ranked
           [C "2" "H"; C "2" "D"; C "9" "C"; C "K" "S"; C "K" "H"]).
  - valid_cards.
  - apply (NoDup_count_occ' Card_eq_dec). intros c Hc. cbn in Hc.
    repeat (destruct Hc as [<-|Hc]; [reflexivity|]). contradiction.
  - reflexivity.
Defined.

(** ** PokerHand: ties *)

(** X20.  [<=] and [>=] invert the ranks like [<] and [>].  Two hands of one
    category are a tie whatever their cards: each is [<=] and [>=] the
    other and neither is [<] or [>]; no kicker is looked at. *)
Theorem poker_comparisons_tie (A B : list Card) (a b : Z) :
  PokerHand.hand_rank A = ret a -> PokerHand.hand_rank B = ret b ->
  PokerHand.le A B = ret (b <=? a) /\
  PokerHand.ge A B = ret (a <=? b) /\
  PokerHand.le A B = PokerHand.ge B A /\
  PokerHand.lt A B = PokerHand.gt B A /\
  (a = b ->
   PokerHand.le A B = ret true /\ PokerHand.ge A B = ret true /\
   PokerHand.lt A B = ret false /\ PokerHand.gt A B = ret false).
Proof.
  intros HA HB.
  unfold PokerHand.le, PokerHand.ge, PokerHand.lt, PokerHand.gt.
  rewrite HA, HB. cbn [bind ret]. unfold ret.
  rewrite Z.geb_leb, Z.gtb_ltb.
  repeat split; try reflexivity; subst b;
    rewrite ?Z.leb_refl, ?Z.ltb_irrefl, ?Z.gtb_ltb, ?Z.geb_leb, ?Z.leb_refl,
      ?Z.ltb_irrefl; reflexivity.
Qed.

Lemma poker_comparisons_tie_witness :
  PokerHand.le [C "A" "H"; C "A" "D"; C "5" "C"; C "7" "S"; C "9" "H"]
               [C "2" "H"; C "2" "D"; C "5" "D"; C "7" "C"; C "9" "S"] = ret (8 <=? 8) /\
  PokerHand.ge [C "A" "H"; C "A" "D"; C "5" "C"; C "7" "S"; C "9" "H"]
               [C "2" "H"; C "2" "D"; C "5" "D"; C "7" "C"; C "9" "S"] = ret (8 <=? 8) /\
  PokerHand.le [C "A" "H"; C "A" "D"; C "5" "C"; C "7" "S"; C "9" "H"]
               [C "2" "H"; C "2" "D"; C "5" "D"; C "7" "C"; C "9" "S"] =
  PokerHand.ge [C "2" "H"; C "2" "D"; C "5" "D"; C "7" "C"; C "9" "S"]
               [C "A" "H"; C "A" "D"; C "5" "C"; C "7" "S"; C "9" "H"] /\
  PokerHand.lt [C "A" "H"; C "A" "D"; C "5" "C"; C "7" "S"; C "9" "H"]
               [C "2" "H"; C "2" "D"; C "5" "D"; C "7" "C"; C "9" "S"] =
  PokerHand.gt [C "2" "H"; C "2" "D"; C "5" "D"; C "7" "C"; C "9" "S"]
               [C "A" "H"; C "A" "D"; C "5" "C"; C "7" "S"; C "9" "H"] /\
  (8 = 8 ->
   PokerHand.le [C "A" "H"; C "A" "D"; C "5" "C"; C "7" "S"; C "9" "H"]
                [C "2" "H"; C "2" "D"; C "5" "D"; C "7" "C"; C "9" "S"] = ret true /\
   PokerHand.ge [C "A" "H"; C "A" "D"; C "5" "C"; C "7" "S"; C "9" "H"]
                [C "2" "H"; C "2" "D"; C "5" "D"; C "7" "C"; C "9" "S"] = ret true /\
   PokerHand.lt [C "A" "H"; C "A" "D"; C "5" "C"; C "7" "S"; C "9" "H"]
                [C "2" "H"; C "2" "D"; C "5" "D"; C "7" "C"; C "9" "S"] = ret false /\
   PokerHand.gt [C "A" "H"; C "A" "D"; C "5" "C"; C "7" "S"; C "9" "H"]
                [C "2" "H"; C "2" "D"; C "5" "D"; C "7" "C"; C "9" "S"] = ret false).
Proof.
  apply (poker_comparisons_tie
           [C "A" "H"; C "A" "D"; C "5" "C"; C "7" "S"; C "9" "H"]
           [C "2" "H"; C "2" "D"; C "5" "D"; C "7" "C"; C "9" "S"] 8 8);
    reflexivity.
Defined.

(** ** PokerHand: the order of the cards does not matter *)

Lemma bool_eq_of_iff (a b : bool) : (a = true <-> b = true) -> a = b.
Proof.
  destruct a, b; intros [H1 H2]; try reflexivity;
    [symmetry; apply H1; reflexivity | apply H2; reflexivity].
Qed.

Lemma nodup_length_Permutation (l l' : list string) :
  Permutation l l' ->
  List.length (nodup string_dec l) = List.length (nodup string_dec l').
Proof.
  intro HP. apply Permutation_length, NoDup_Permutation; try apply NoDup_nodup.
  intro x. rewrite !nodup_In. split; apply Permutation_in; [|apply Permutation_sym]; exact HP.
Qed.

Lemma str_in_Permutation x l l' : Permutation l l' -> str_in x l = str_in x l'.
Proof.
  intro HP. apply bool_eq_of_iff. rewrite !str_in_In.
  split; apply Permutation_in; [|apply Permutation_sym]; exact HP.
Qed.

Lemma index_not_In xs x : ~ In x xs -> index xs x = raise ValueError.
Proof.
  induction xs as [|y ys IH]; cbn [index In]; intro H; [reflexivity|].
  destruct (String.eqb_spec y x); [tauto|].
  rewrite IH by tauto. reflexivity.
Qed.

Lemma index_error xs x e : index xs x = inl e -> e = ValueError.
Proof.
  induction xs as [|y ys IH]; cbn [index].
  - intro H. injection H as <-. reflexivity.
  - destruct (String.eqb y x); [discriminate|].
    destruct (index ys x) as [e'|i]; cbn [bind ret]; [|discriminate].
    intro H. injection H as <-. now apply IH.
Qed.

Lemma mapM_index_raises rs :
  Exists (fun r => ~ In r RANKS) rs -> mapM (index RANKS) rs = raise ValueError.
Proof.
  induction 1 as [r rs Hr|r rs _ IH]; cbn [mapM].
  - rewrite (index_not_In _ _ Hr). reflexivity.
  - destruct (index RANKS r) as [e|i] eqn:E; cbn [bind ret].
    + apply index_error in E. now subst.
    + rewrite IH. reflexivity.
Qed.

Lemma mapM_index_map rs :
  Forall (fun r => In r RANKS) rs ->
  mapM (index RANKS) rs =
  ret (map (fun r => match index RANKS r with inr i => i | inl _ => 0 end) rs).
Proof.
  induction 1 as [|r rs Hr _ IH]; cbn [mapM map]; [reflexivity|].
  destruct (index_RANKS_defined r Hr) as [i ->]. rewrite IH. reflexivity.
Qed.

Lemma py_max_Permutation l l' : Permutation l l' -> py_max l = py_max l'.
Proof.
  intro HP.
  destruct l as [|x t].
  - apply Permutation_nil in HP. now subst.
  - destruct l' as [|x' t'].
    + apply Permutation_sym, Permutation_nil in HP. discriminate.
    + destruct (py_max (x :: t)) as [e|m] eqn:E; [discriminate|].
      destruct (py_max (x' :: t')) as [e|m'] eqn:E'; [discriminate|].
      destruct (py_max_spec _ _ E) as [Hin Hle].
      destruct (py_max_spec _ _ E') as [Hin' Hle'].
      apply (Permutation_in _ HP) in Hin. apply Hle' in Hin.
      apply (Permutation_in _ (Permutation_sym HP)) in Hin'. apply Hle in Hin'.
      unfold ret. f_equal. lia.
Qed.

Lemma py_min_Permutation l l' : Permutation l l' -> py_min l = py_min l'.
Proof.
  intro HP.
  destruct l as [|x t].
  - apply Permutation_nil in HP. now subst.
  - destruct l' as [|x' t'].
    + apply Permutation_sym, Permutation_nil in HP. discriminate.
    + destruct (py_min (x :: t)) as [e|m] eqn:E; [discriminate|].
      destruct (py_min (x' :: t')) as [e|m'] eqn:E'; [discriminate|].
      destruct (py_min_spec _ _ E) as [Hin Hle].
      destruct (py_min_spec _ _ E') as [Hin' Hle'].
      apply (Permutation_in _ HP) in Hin. apply Hle' in Hin.
      apply (Permutation_in _ (Permutation_sym HP)) in Hin'. apply Hle in Hin'.
      unfold ret. f_equal. lia.
Qed.

Section Reordered.
Variables cards cards' : list Card.
Hypothesis HP : Permutation cards cards'.

Lemma ranks_Permutation : Permutation (PokerHand.ranks cards) (PokerHand.ranks cards').
Proof. apply Permutation_map, HP. Qed.

Lemma rank_count_Permutation r : rank_count r cards = rank_count r cards'.
Proof. apply Permutation_count_occ, ranks_Permutation. Qed.

Lemma multiplicity_Permutation n :
  int_in n (values (Counter String.eqb (PokerHand.ranks cards))) =
  int_in n (values (Counter String.eqb (PokerHand.ranks cards'))).
Proof.
  apply bool_eq_of_iff. rewrite !rank_multiplicity.
  split; intros (r & Hr & E); exists r; rewrite rank_count_Permutation in *.
  - split; [exact (Permutation_in _ ranks_Permutation Hr) | exact E].
  - split; [exact (Permutation_in _ (Permutation_sym ranks_Permutation) Hr) | exact E].
Qed.

Lemma is_flush_Permutation : PokerHand.is_flush cards = PokerHand.is_flush cards'.
Proof.
  unfold PokerHand.is_flush, len, set_of, PokerHand.suits.
  rewrite (nodup_length_Permutation _ _ (Permutation_map suit HP)).
  rewrite (Permutation_length HP). reflexivity.
Qed.

Lemma is_two_pair_Permutation : PokerHand.is_two_pair cards = PokerHand.is_two_pair cards'.
Proof.
  apply bool_eq_of_iff. rewrite !is_two_pair_meaning.
  pose proof ranks_Permutation as HR.
  split; intros (r1 & r2 & Hne & H1 & H2 & E & Hall); exists r1, r2;
    (split; [exact Hne|]).
  - split; [exact (Permutation_in _ HR H1)|].
    split; [exact (Permutation_in _ HR H2)|].
    rewrite <- !rank_count_Permutation. split; [exact E|].
    intros r Hr Er. rewrite <- rank_count_Permutation in Er.
    apply Hall; [exact (Permutation_in _ (Permutation_sym HR) Hr) | exact Er].
  - split; [exact (Permutation_in _ (Permutation_sym HR) H1)|].
    split; [exact (Permutation_in _ (Permutation_sym HR) H2)|].
    rewrite !rank_count_Permutation. split; [exact E|].
    intros r Hr Er. rewrite rank_count_Permutation in Er.
    apply Hall; [exact (Permutation_in _ HR Hr) | exact Er].
Qed.

Lemma is_straight_Permutation :
  PokerHand.is_straight cards = PokerHand.is_straight cards'.
Proof.
  pose proof ranks_Permutation as HR.
  unfold PokerHand.is_straight, PokerHand._all_unique_ranks, set_of, len.
  rewrite (str_in_Permutation "A" _ _ HR), (sorted_of_Permutation _ _ HR).
  rewrite (nodup_length_Permutation _ _ HR).
  destruct (str_in "A" (PokerHand.ranks cards')); [reflexivity|].
  destruct (Forall_Exists_dec (fun r => In r RANKS)
              (fun r => in_dec string_dec r RANKS) (PokerHand.ranks cards)) as [Hall|Hex].
  - assert (Hall' : Forall (fun r => In r RANKS) (PokerHand.ranks cards'))
      by (eapply Permutation_Forall; eauto).
    rewrite (mapM_index_map _ Hall), (mapM_index_map _ Hall'). cbn [bind ret].
    pose proof (Permutation_map
                  (fun r => match index RANKS r with inr i => i | inl _ => 0 end) HR) as HI.
    rewrite (py_max_Permutation _ _ HI), (py_min_Permutation _ _ HI). reflexivity.
  - assert (Hex' : Exists (fun r => ~ In r RANKS) (PokerHand.ranks cards')).
    { apply Exists_exists in Hex. destruct Hex as (r & Hr & Hn).
      apply Exists_exists. exists r. split; [exact (Permutation_in _ HR Hr) | exact Hn]. }
    rewrite (mapM_index_raises _ Hex), (mapM_index_raises _ Hex'). reflexivity.
Qed.

Lemma hand_rank_Permutation : PokerHand.hand_rank cards = PokerHand.hand_rank cards'.
Proof.
  pose proof ranks_Permutation as HR.
  rewrite !hand_rank_find_first. unfold categories. cbn [find_first].
  unfold PokerHand.is_royal_flush, PokerHand.is_four_kind, PokerHand.is_straight_flush,
    PokerHand.is_full_house, PokerHand.is_three_kind, PokerHand.is_pair,
    PokerHand.is_high_card, set_of, len.
  rewrite (sorted_of_Permutation _ _ HR), is_flush_Permutation, is_straight_Permutation,
    is_two_pair_Permutation, !multiplicity_Permutation,
    (nodup_length_Permutation _ _ HR).
  reflexivity.
Qed.

End Reordered.

(** X21.  [hand_rank] does not depend on the order of the cards: two hands
    with the same cards get the same rank, or raise the same exception. *)
Theorem hand_rank_order_free (cards cards' : list Card) :
  Permutation cards cards' ->
  PokerHand.hand_rank cards = PokerHand.hand_rank cards'.
Proof. apply hand_rank_Permutation. Qed.

Lemma hand_rank_order_free_witness :
  PokerHand.hand_rank [C "5" "H"; C "2" "D"; C "5" "C"; C "K" "S"; C "2" "H"] =
  PokerHand.hand_rank [C "2" "D"; C "5" "H"; C "5" "C"; C "K" "S"; C "2" "H"].
Proof.
  apply (hand_rank_order_free
           [C "5" "H"; C "2" "D"; C "5" "C"; C "K" "S"; C "2" "H"]
           [C "2" "D"; C "5" "H"; C "5" "C"; C "K" "S"; C "2" "H"]).
  apply perm_swap.
Defined.

(** ** PokerHand: the exceptions of [hand_rank] *)

Lemma flush_hand_is_ranked cards b :
  PokerHand.is_straight cards = ret b -> PokerHand.is_flush cards = true ->
  exists i, PokerHand.hand_rank cards = ret i.
Proof.
  intros Hs Hf.
  destruct (find_first_defined cards categories 0 (categories_defined cards b Hs)) as [n Hn].
  { exists (fun cards => ret (PokerHand.is_flush cards)). split.
    - unfold categories. do 4 right. left. reflexivity.
    - cbn. now rewrite Hf. }
  exists (Z.of_nat n). rewrite hand_rank_find_first, Hn. reflexivity.
Qed.

Lemma five_of_a_rank_raises cards r :
  In r RANKS -> PokerHand.ranks cards = [r; r; r; r; r] ->
  PokerHand.is_flush cards = false ->
  PokerHand.hand_rank cards = raise StopIteration.
Proof.
  intros Hr Er Hf.
  rewrite hand_rank_find_first. unfold categories. cbn [find_first].
  unfold PokerHand.is_royal_flush, PokerHand.is_four_kind, PokerHand.is_straight_flush,
    py_and, PokerHand.is_full_house, PokerHand.is_three_kind, PokerHand.is_pair,
    PokerHand.is_two_pair, PokerHand.is_high_card, PokerHand.is_straight,
    PokerHand._all_unique_ranks.
  rewrite Hf, Er. cbn in Hr.
  repeat (destruct Hr as [<-|Hr]; [vm_compute; reflexivity|]).
  contradiction.
Qed.

Lemma five_of_a_rank_ranks cards r :
  List.length cards = 5%nat -> rank_count r cards = 5%nat ->
  PokerHand.ranks cards = [r; r; r; r; r].
Proof.
  intros Hl Er. unfold rank_count in Er.
  assert (Hlr : List.length (PokerHand.ranks cards) = 5%nat)
    by (unfold PokerHand.ranks; now rewrite length_map).
  rewrite <- Hlr in Er. apply count_occ_unique in Er. rewrite Hlr in Er. exact Er.
Qed.

Lemma not_five_of_first_rank c0 rest :
  List.length (c0 :: rest) = 5%nat ->
  rank_count (rank c0) (c0 :: rest) <> 5%nat ->
  forall r, rank_count r (c0 :: rest) <> 5%nat.
Proof.
  intros Hl E r Er. apply E.
  pose proof (five_of_a_rank_ranks _ _ Hl Er) as Hr.
  cbn [PokerHand.ranks map] in Hr. injection Hr as H0 _. rewrite H0. exact Er.
Qed.

(** X22.  On five deck cards [hand_rank] raises [StopIteration] exactly when
    the five cards are of one rank and are not a flush, which takes cards
    of more than one deck; in every other case it returns a rank. *)
Theorem hand_rank_stop_iteration_iff (cards : list Card) :
  Forall valid_card cards -> List.length cards = 5%nat ->
  (PokerHand.hand_rank cards = raise StopIteration <->
   (exists r, rank_count r cards = 5%nat) /\ PokerHand.is_flush cards = false) /\
  (PokerHand.hand_rank cards = raise StopIteration \/
   exists i, PokerHand.hand_rank cards = ret i).
Proof.
  intros Hv Hl.
  destruct (is_straight_defined cards Hv) as [b Hs];
    [destruct cards; [discriminate | congruence]|].
  assert (Hback : (exists r, rank_count r cards = 5%nat) ->
            PokerHand.is_flush cards = false ->
            PokerHand.hand_rank cards = raise StopIteration).
  { intros (r & Er) Hf.
    pose proof (five_of_a_rank_ranks cards r Hl Er) as Hranks.
    apply (five_of_a_rank_raises cards r); [|exact Hranks | exact Hf].
    assert (Hin : In r (PokerHand.ranks cards)) by (rewrite Hranks; now left).
    unfold PokerHand.ranks in Hin. apply in_map_iff in Hin.
    destruct Hin as (c & <- & Hc). rewrite Forall_forall in Hv. apply (Hv c Hc). }
  assert (Hcases : (PokerHand.is_flush cards = false /\
                    exists r, rank_count r cards = 5%nat) \/
                   exists i, PokerHand.hand_rank cards = ret i).
  { destruct (PokerHand.is_flush cards) eqn:Hf.
    - right. exact (flush_hand_is_ranked cards b Hs Hf).
    - destruct cards as [|c0 rest]; [discriminate|].
      destruct (Nat.eq_dec (rank_count (rank c0) (c0 :: rest)) 5) as [E|E].
      + left. split; [reflexivity | exists (rank c0); exact E].
      + right. apply (hand_rank_defined _ Hv Hl).
        now apply not_five_of_first_rank. }
  split.
  - split.
    + intro Hstop. destruct Hcases as [[Hf Hr]|[i Hi]]; [tauto|].
      unfold raise, ret in *. congruence.
    + intros [Hr Hf]. now apply Hback.
  - destruct Hcases as [[Hf Hr]|Hi]; [left; now apply Hback | right; exact Hi].
Qed.

Lemma hand_rank_stop_iteration_iff_witness :
  (PokerHand.hand_rank [C "7" "H"; C "7" "H"; C "7" "D"; C "7" "C"; C "7" "S"]
     = raise StopIteration <->
   (exists r, rank_count r [C "7" "H"; C "7" "H"; C "7" "D"; C "7" "C"; C "7" "S"] = 5%nat) /\
   PokerHand.is_flush [C "7" "H"; C "7" "H"; C "7" "D"; C "7" "C"; C "7" "S"] = false) /\
  (PokerHand.hand_rank [C "7" "H"; C "7" "H"; C "7" "D"; C "7" "C"; C "7" "S"]
     = raise StopIteration \/
   exists i, PokerHand.hand_rank [C "7" "H"; C "7" "H"; C "7" "D"; C "7" "C"; C "7" "S"]
             = ret i).
Proof.
  apply (hand_rank_stop_iteration_iff
           [C "7" "H"; C "7" "H"; C "7" "D"; C "7" "C"; C "7" "S"]).
  - valid_cards.
  - reflexivity.
Defined.

(** X23.  [hand_rank] raises [ValueError] on a rank it does not know, but only
    when no ace is in the hand and no four of a kind answers first: with
    an ace, [is_straight] never looks the ranks up.  The empty hand
    raises [ValueError] too. *)
Theorem hand_rank_value_errors (cards : list Card) :
  ((exists r, In r (PokerHand.ranks cards) /\ ~ In r RANKS) ->
   ~ In "A" (PokerHand.ranks cards) ->
   PokerHand.is_straight cards = raise ValueError /\
   (PokerHand.is_four_kind cards = false ->
    PokerHand.hand_rank cards = raise ValueError)) /\
  (In "A" (PokerHand.ranks cards) -> exists b, PokerHand.is_straight cards = ret b) /\
  (cards = [] -> PokerHand.hand_rank cards = raise ValueError).
Proof.
  split; [|split].
  - intros (r & Hr & Hn) HA.
    assert (Hs : PokerHand.is_straight cards = raise ValueError).
    { unfold PokerHand.is_straight.
      destruct (str_in "A" (PokerHand.ranks cards)) eqn:EA;
        [apply str_in_In in EA; contradiction|].
      rewrite mapM_index_raises; [reflexivity|].
      apply Exists_exists. exists r. split; assumption. }
    split; [exact Hs|]. intro H4.
    rewrite hand_rank_find_first. unfold categories. cbn [find_first].
    assert (H0 : PokerHand.is_royal_flush cards = false).
    { unfold PokerHand.is_royal_flush.
      destruct (strs_eqb (sorted (PokerHand.ranks cards)) ["10"; "A"; "J"; "K"; "Q"]) eqn:E;
        [|reflexivity].
      exfalso. apply HA. apply strs_eqb_eq in E.
      apply (Permutation_in _ (sorted_Permutation _)). rewrite E. cbn. tauto. }
    rewrite H0, H4. cbn [bind ret].
    unfold PokerHand.is_straight_flush, py_and. rewrite Hs. reflexivity.
  - intro HA. unfold PokerHand.is_straight.
    rewrite (proj2 (str_in_In _ _) HA). eexists. reflexivity.
  - intros ->. reflexivity.
Qed.

Lemma hand_rank_value_errors_witness :
  PokerHand.is_straight [C "1" "H"; C "2" "D"; C "3" "C"; C "4" "S"; C "5" "H"]
    = raise ValueError /\
  (PokerHand.is_four_kind [C "1" "H"; C "2" "D"; C "3" "C"; C "4" "S"; C "5" "H"] = false ->
   PokerHand.hand_rank [C "1" "H"; C "2" "D"; C "3" "C"; C "4" "S"; C "5" "H"]
     = raise ValueError).
Proof.
  apply (hand_rank_value_errors [C "1" "H"; C "2" "D"; C "3" "C"; C "4" "S"; C "5" "H"]).
  - exists "1". split; [cbn; tauto|]. cbn. intro H.
    repeat (destruct H as [H|H]; [discriminate|]). contradiction.
  - cbn. intro H.
    repeat (destruct H as [H|H]; [discriminate|]). contradiction.
Defined.

(** ** HoldEmHand: pools of three and more cards *)

Lemma rank_below_sentinel r :
  0 <= r < 10 -> number_lt (Int r) HoldEmHand.sentinel = true.
Proof.
  intro H. apply number_lt_spec. cbn [number_value HoldEmHand.sentinel].
  change (1000000 # 1) with (inject_Z 1000000). rewrite <- Zlt_Qlt. lia.
Qed.

(** X24.  With exactly three community cards there is one hand to look at:
    [hand_rank] is the PokerHand rank of the hole cards followed by the
    three community cards, or the exception that rank raises. *)
Theorem holdem_three_community (hole community : list Card) :
  List.length community = 3%nat ->
  HoldEmHand.hand_rank hole community =
  (r <- PokerHand.hand_rank (hole ++ community) ;; ret (Int r)).
Proof.
  intro Hl.
  destruct community as [|a [|b [|c [|d t]]]]; try discriminate.
  cbn [HoldEmHand.hand_rank combinations map app HoldEmHand.best_from].
  destruct (PokerHand.hand_rank (hole ++ [a; b; c])) as [e|r] eqn:E; cbn [bind ret];
    [reflexivity|].
  rewrite rank_below_sentinel by (eapply hand_rank_range; eauto). reflexivity.
Qed.

Lemma holdem_three_community_witness :
  HoldEmHand.hand_rank [C "A" "H"; C "A" "S"] [C "A" "D"; C "3" "H"; C "3" "D"] =
  (r <- PokerHand.hand_rank ([C "A" "H"; C "A" "S"] ++ [C "A" "D"; C "3" "H"; C "3" "D"]) ;;
   ret (Int r)).
Proof.
  apply (holdem_three_community [C "A" "H"; C "A" "S"] [C "A" "D"; C "3" "H"; C "3" "D"]).
  reflexivity.
Defined.

Lemma drawn_from_length {A} (c l : list A) :
  drawn_from c l -> (List.length c <= List.length l)%nat.
Proof. induction 1; cbn; lia. Qed.

Lemma drawn_from_trans {A} (b c : list A) :
  drawn_from b c -> forall a, drawn_from a b -> drawn_from a c.
Proof.
  induction 1 as [|b x c _ IH|b x c _ IH]; intros a Hab.
  - exact Hab.
  - apply drawn_skip. now apply IH.
  - inversion Hab; subst.
    + apply drawn_skip. now apply IH.
    + apply drawn_take. now apply IH.
Qed.

Lemma holdem_rank_spec hole community :
  (3 <= List.length community)%nat ->
  (forall combo, In combo (combinations community 3) ->
     exists r, PokerHand.hand_rank (hole ++ combo) = ret r) ->
  exists m,
    HoldEmHand.hand_rank hole community = ret (Int m) /\
    (exists combo, In combo (combinations community 3) /\
       PokerHand.hand_rank (hole ++ combo) = ret m) /\
    (forall combo r, In combo (combinations community 3) ->
       PokerHand.hand_rank (hole ++ combo) = ret r -> m <= r).
Proof.
  intros Hlen Hdef.
  rewrite holdem_loop by (destruct community; [cbn in Hlen; lia | discriminate]).
  destruct (best_from_spec hole (combinations community 3) HoldEmHand.sentinel Hdef)
    as (best' & Hrun & Horigin & _ & Hall).
  assert (Hfirst : In (firstn 3 community) (combinations community 3)).
  { apply combinations_spec. split; [apply drawn_from_firstn|].
    rewrite length_firstn. lia. }
  destruct Horigin as [->|(combo & m & Hin & Hm & ->)].
  - exfalso. destruct (Hdef _ Hfirst) as [r Hr].
    pose proof (rank_below_sentinel r (hand_rank_range _ _ Hr)) as Hlt.
    apply number_lt_spec in Hlt.
    pose proof (Hall _ _ Hfirst Hr) as Hq. cbn [number_value] in *. lra.
  - exists m. split; [exact Hrun|]. split; [exists combo; auto|].
    intros combo' r Hin' Hr. pose proof (Hall _ _ Hin' Hr) as Hq.
    cbn [number_value] in Hq. rewrite Zle_Qle. exact Hq.
Qed.

(** X25.  More community cards never make the hand worse: if the pool grows
    (the old pool is drawn from the new one), the new rank is at most the
    old one. *)
Theorem holdem_more_community_never_worse (hole pool pool' : list Card) :
  (3 <= List.length pool)%nat -> drawn_from pool pool' ->
  (forall combo, drawn_from combo pool' -> List.length combo = 3%nat ->
     exists r, PokerHand.hand_rank (hole ++ combo) = ret r) ->
  exists m m',
    HoldEmHand.hand_rank hole pool = ret (Int m) /\
    HoldEmHand.hand_rank hole pool' = ret (Int m') /\
    m' <= m.
Proof.
  intros Hlen Hd Hdef.
  pose proof (drawn_from_length _ _ Hd) as Hlen'.
  destruct (holdem_rank_spec hole pool Hlen) as (m & Hm & (combo & Hin & Hc) & _).
  { intros combo Hin. apply combinations_spec in Hin. destruct Hin as [Hc Hl].
    apply Hdef; [eapply drawn_from_trans; eauto | exact Hl]. }
  destruct (holdem_rank_spec hole pool') as (m' & Hm' & _ & Hall); [lia| |].
  { intros c Hin'. apply combinations_spec in Hin'. destruct Hin'. now apply Hdef. }
  exists m, m'. split; [exact Hm|]. split; [exact Hm'|].
  apply (Hall combo m); [|exact Hc].
  apply combinations_spec in Hin. destruct Hin as [Hdc Hl].
  apply combinations_spec. split; [eapply drawn_from_trans; eauto | exact Hl].
Qed.

Lemma holdem_more_community_never_worse_witness :
  exists m m',
    HoldEmHand.hand_rank [C "A" "H"; C "A" "S"] [C "2" "H"; C "3" "H"; C "K" "D"]
      = ret (Int m) /\
    HoldEmHand.hand_rank [C "A" "H"; C "A" "S"]
      [C "2" "H"; C "A" "D"; C "3" "H"; C "K" "D"] = ret (Int m') /\
    m' <= m.
Proof.
  apply (holdem_more_community_never_worse [C "A" "H"; C "A" "S"]
           [C "2" "H"; C "3" "H"; C "K" "D"]
           [C "2" "H"; C "A" "D"; C "3" "H"; C "K" "D"]).
  - cbn. lia.
  - apply drawn_take, drawn_skip, drawn_take, drawn_take, drawn_nil.
  - intros combo Hd Hl.
    assert (H : In combo (combinations
              [C "2" "H"; C "A" "D"; C "3" "H"; C "K" "D"] 3)).
    { apply combinations_spec. split; assumption. }
    cbn in H.
    repeat (destruct H as [<-|H]; [eexists; vm_compute; reflexivity|]).
    contradiction.
Defined.



(** ** HoldEmHand: comparisons *)

Lemma best_from_Int hole m : forall combos best,
  HoldEmHand.best_from hole combos best = ret (Int m) ->
  best = Int m \/ 0 <= m < 10.
Proof.
  induction combos as [|c rest IH]; intros best; cbn [HoldEmHand.best_from].
  - intro E. left. unfold ret in E. congruence.
  - destruct (PokerHand.hand_rank (hole ++ c)) as [e|r] eqn:Hr; cbn [bind ret];
      [discriminate|].
    intro E. apply IH in E. destruct E as [E|E]; [|now right].
    destruct (number_lt (Int r) best); [|now left].
    injection E as <-. right. eapply hand_rank_range; eauto.
Qed.

Lemma holdem_rank_Int_range h m : HoldEm_rank h = ret (Int m) -> 0 <= m < 10.
Proof.
  unfold HoldEm_rank, HoldEmHand.hand_rank.
  destruct (he_community_cards h) as [|x t].
  - destruct (PokerHand.hand_rank (he_cards h)) as [e|r] eqn:Hr; cbn [bind ret];
      [discriminate|].
    intro E. injection E as <-. eapply hand_rank_range; eauto.
  - intro E. apply best_from_Int in E. destruct E as [E|E]; [discriminate | exact E].
Qed.

(** X27.  A HoldEmHand whose pool holds 1 or 2 cards carries the rank [1e6]:
    it compares below every HoldEmHand that has a category rank, and ties
    with every other hand of such a short pool. *)
Theorem short_pool_hand_is_weakest (short other : HoldEm) :
  (1 <= List.length (he_community_cards short) <= 2)%nat ->
  (forall m, HoldEm_rank other = ret (Int m) ->
     HoldEm_lt short other = ret true /\ HoldEm_gt other short = ret true /\
     HoldEm_ge short other = ret false /\ HoldEm_le other short = ret false) /\
  ((1 <= List.length (he_community_cards other) <= 2)%nat ->
     HoldEm_le short other = ret true /\ HoldEm_ge short other = ret true /\
     HoldEm_lt short other = ret false /\ HoldEm_gt short other = ret false).
Proof.
  intro Hs.
  assert (Es : HoldEm_rank short = ret HoldEmHand.sentinel).
  { unfold HoldEm_rank.
    rewrite holdem_loop by (destruct (he_community_cards short); [cbn in Hs; lia | discriminate]).
    rewrite combinations_short by lia. reflexivity. }
  split.
  - intros m Em. pose proof (holdem_rank_Int_range _ _ Em) as Hr.
    unfold HoldEm_lt, HoldEm_gt, HoldEm_ge, HoldEm_le. rewrite Es, Em. cbn [bind ret].
    unfold number_gt, number_ge, number_le.
    pose proof (rank_below_sentinel m Hr) as Hlt.
    rewrite Hlt. unfold number_lt in Hlt. apply negb_true_iff in Hlt. rewrite Hlt.
    repeat split; reflexivity.
  - intro Ho.
    assert (Eo : HoldEm_rank other = ret HoldEmHand.sentinel).
    { unfold HoldEm_rank.
      rewrite holdem_loop
        by (destruct (he_community_cards other); [cbn in Ho; lia | discriminate]).
      rewrite combinations_short by lia. reflexivity. }
    unfold HoldEm_lt, HoldEm_gt, HoldEm_ge, HoldEm_le. rewrite Es, Eo.
    repeat split; reflexivity.
Qed.

Lemma short_pool_hand_is_weakest_witness :
  HoldEm_lt (mkHoldEm [C "A" "H"; C "A" "S"] [C "A" "D"; C "A" "C"])
            (mkHoldEm [C "2" "H"; C "7" "S"] [C "9" "D"; C "J" "C"; C "K" "H"]) = ret true.
Proof.
  destruct (short_pool_hand_is_weakest
              (mkHoldEm [C "A" "H"; C "A" "S"] [C "A" "D"; C "A" "C"])
              (mkHoldEm [C "2" "H"; C "7" "S"] [C "9" "D"; C "J" "C"; C "K" "H"]))
    as [H _]; [cbn; lia|].
  apply (H 9). reflexivity.
Defined.
